(** * pylint-per-file-ignores: the plugin's configuration loader and
      message filter, embedded from [pylint_per_file_ignores/_plugin.py].

    Python strings are sequences of code points; the embedding uses
    [string] (code points below 256).  Exceptions are values of [exn];
    the class attributes that [_augment_add_message] overwrites are an
    explicit store that survives an exception. *)

From Stdlib Require Import Ascii String.
From stdpp Require Import base decidable option list strings gmap.

Local Open Scope string_scope.
Local Open Scope list_scope.

(** ** Python [str] primitives used by the plugin *)

Module Str.

Definition LF : ascii := "010"%char.

(** [c in s] for a one-character [c]. *)
Fixpoint contains (c : ascii) (s : string) : bool :=
  match s with
  | EmptyString => false
  | String x s' => Ascii.eqb x c || contains c s'
  end.

Fixpoint count (c : ascii) (s : string) : nat :=
  match s with
  | EmptyString => 0
  | String x s' => (if Ascii.eqb x c then 1 else 0) + count c s'
  end.

(** [s.split(sep)] for a one-character separator: never empty,
    [n] separators give [n + 1] fields. *)
Fixpoint split (sep : ascii) (s : string) : list string :=
  match s with
  | EmptyString => [EmptyString]
  | String x s' =>
      if Ascii.eqb x sep then EmptyString :: split sep s'
      else match split sep s' with
           | w :: ws => String x w :: ws
           | [] => [String x EmptyString]
           end
  end.

(** [str.isspace] on one code point below 256. *)
Definition isspace (c : ascii) : bool :=
  let n := nat_of_ascii c in
  ((9 <=? n)%nat && (n <=? 13)%nat) || ((28 <=? n)%nat && (n <=? 32)%nat)
  || (n =? 133)%nat || (n =? 160)%nat.

Fixpoint lstrip (s : string) : string :=
  match s with
  | EmptyString => EmptyString
  | String x s' => if isspace x then lstrip s' else s
  end.

Fixpoint rstrip (s : string) : string :=
  match s with
  | EmptyString => EmptyString
  | String x s' =>
      match rstrip s' with
      | EmptyString => if isspace x then EmptyString else String x EmptyString
      | r => String x r
      end
  end.

Definition strip (s : string) : string := rstrip (lstrip s).

(** Truthiness of a string: non-empty. *)
Definition truthy (s : string) : bool :=
  match s with EmptyString => false | String _ _ => true end.

(** [s.startswith(c)] for a one-character prefix, and [s[1:]]. *)
Definition startswith (c : ascii) (s : string) : bool :=
  match s with String x _ => Ascii.eqb x c | EmptyString => false end.

Definition tail (s : string) : string :=
  match s with String _ s' => s' | EmptyString => EmptyString end.

End Str.

(** ** The regular expression of [_parse_string]

    [re.sub(r",([^,:]+:)", r"\n\1", s)]: at a comma, group 1 is the
    longest non-empty run of characters other than [,] and [:], and it
    must be followed by [:].  A shorter run cannot match, its next
    character being neither of the two. *)

Definition is_comma_or_colon (c : ascii) : bool :=
  Ascii.eqb c ","%char || Ascii.eqb c ":"%char.

(** The run [[^,:]*] at the head of [s], and what follows it. *)
Fixpoint span_run (s : string) : string * string :=
  match s with
  | EmptyString => (EmptyString, EmptyString)
  | String x s' =>
      if is_comma_or_colon x then (EmptyString, s)
      else let '(run, rest) := span_run s' in (String x run, rest)
  end.

(** Group 1 when the pattern matches with its comma just before [s]. *)
Definition match_group (s : string) : option string :=
  match span_run s with
  | (String x run, String c _) =>
      if Ascii.eqb c ":"%char then Some (String x run +:+ ":") else None
  | _ => None
  end.

(** The substitution scans left to right; matches do not overlap.
    [skip] counts the characters of the current match still to copy
    (the replacement writes group 1 back as it was). *)
Fixpoint re_sub_from (skip : nat) (s : string) : string :=
  match s with
  | EmptyString => EmptyString
  | String x s' =>
      match skip with
      | S k => String x (re_sub_from k s')
      | O =>
          if Ascii.eqb x ","%char then
            match match_group s' with
            | Some g => String Str.LF (re_sub_from (String.length g) s')
            | None => String x (re_sub_from 0 s')
            end
          else String x (re_sub_from 0 s')
      end
  end.

Definition re_sub (s : string) : string := re_sub_from 0 s.

(** ** [pylint.utils._splitstrip] and [_parse_string] *)

(** [[word.strip() for word in string.split(sep) if word.strip()]] *)
Definition _splitstrip (s : string) (sep : ascii) : list string :=
  omap (fun word => if Str.truthy (Str.strip word)
                    then Some (Str.strip word) else None)
       (Str.split sep s).

Definition _parse_string (input_string : string) : list string :=
  let input_string :=
    if negb (Str.contains Str.LF input_string)
    then re_sub input_string else input_string in
  _splitstrip input_string Str.LF.

(** ** Exceptions and results *)

Inductive exn :=
| ValueError            (* the spec's ConfigError *)
| UnknownMessageError   (* the spec's UnknownRuleError *)
| AssertionError
| IndexError
| TypeError.

Inductive result (A : Type) :=
| Ok (a : A)
| Err (e : exn).
Arguments Ok {A} a.
Arguments Err {A} e.

Global Instance exn_eq_dec : EqDecision exn.
Proof. solve_decision. Defined.

(** ** The built-in [dict], insertion ordered

    Setting a key already present replaces its value and keeps its
    position. *)

Fixpoint dict_set (k v : string) (d : list (string * string))
  : list (string * string) :=
  match d with
  | [] => [(k, v)]
  | (k', v') :: d' =>
      if decide (k = k') then (k', v) :: d'
      else (k', v') :: dict_set k v d'
  end.

Fixpoint dict_get (k : string) (d : list (string * string)) : option string :=
  match d with
  | [] => None
  | (k', v') :: d' => if decide (k = k') then Some v' else dict_get k d'
  end.

(** [dict(iterable)]: every element must be a sequence of length 2. *)
Fixpoint dict_update (d : list (string * string)) (items : list (list string))
  : result (list (string * string)) :=
  match items with
  | [] => Ok d
  | [k; v] :: rest => dict_update (dict_set k v d) rest
  | _ :: _ => Err ValueError
  end.

(** The key of a parsed line. *)
Definition key_of (item : list string) : option string := head item.

(** [d.items()] *)
Definition dict_items (d : list (string * string)) : list (string * string) := d.

(** The [config] of [load_configuration]. *)
Definition parse_config (per_file_ignores : string)
  : result (list (string * string)) :=
  dict_update [] (map (Str.split ":"%char) (_parse_string per_file_ignores)).

(** [list(filter(None, (rule.strip() for rule in rules_str.split(","))))] *)
Definition parse_rules (rules_str : string) : list string :=
  filter (fun r => Is_true (Str.truthy r))
         (map Str.strip (Str.split ","%char rules_str)).

(** ** The host engine, as far as the plugin reads it

    Message definitions, checkers and the message store are pylint's;
    they are modelled by what the plugin reads of them. *)

(** A path made absolute; [Path.__eq__] is equality of the parts. *)
Definition Path := string.

(** [MessageDefinition.__eq__] compares [msgid] and [symbol]. *)
Record MessageDefinition := {
  msgid : string;
  symbol : string;
}.

Global Instance MessageDefinition_eq_dec : EqDecision MessageDefinition.
Proof. solve_decision. Defined.

(** One value of [checker.msgs]: (template, symbol, description). *)
Definition msg_tuple : Type := string * string * string.

(** [value[1]] *)
Definition msg_symbol (value : msg_tuple) : string := snd (fst value).

(** A checker: its name, its message catalogue and its class.  No
    checker class inherits from another checker's class, so the class
    attribute [add_message] of one is not seen through another. *)
Record BaseChecker := {
  name : string;
  msgs : list (string * msg_tuple);
  class_of : nat;
}.

(** [BaseChecker.__eq__] and [__hash__] look at the name and the
    catalogue only. *)
Definition checker_eqb (c1 c2 : BaseChecker) : bool :=
  bool_decide (name c1 = name c2 /\ msgs c1 = msgs c2).

(** The linter: [linter.config.per_file_ignores], [linter.current_file],
    [linter.get_checkers()] and [linter.msgs_store]; the store answers
    [None] where [get_message_definitions] raises. *)
Record PyLinter := {
  per_file_ignores : string;
  current_file : option string;
  get_checkers : list BaseChecker;
  msgs_store : string -> option (list MessageDefinition);
}.

(** Arguments of an emission: positional values and keywords.  The
    keywords are the keyword parameters of [BaseChecker.add_message]. *)
Inductive value :=
| VNone
| VStr (s : string)
| VInt (z : Z)
| VObj (id : nat).

Inductive kwname :=
| kw_msgid | kw_line | kw_node | kw_args | kw_confidence
| kw_col_offset | kw_end_lineno | kw_end_col_offset.

Global Instance value_eq_dec : EqDecision value.
Proof. solve_decision. Defined.

Global Instance kwname_eq_dec : EqDecision kwname.
Proof. solve_decision. Defined.

(** [linter.msgs_store.get_message_definitions(x)] *)
Definition get_message_definitions (linter : PyLinter) (x : value)
  : result (list MessageDefinition) :=
  match x with
  | VStr rule =>
      match msgs_store linter rule with
      | Some defs => Ok defs
      | None => Err UnknownMessageError
      end
  | _ => Err TypeError
  end.

Global Arguments get_message_definitions : simpl never.

(** ** [_get_checker_by_msg] *)

(** [rule in [key, value[1]]] for some item of [checker.msgs] *)
Definition declares (rule : string) (checker : BaseChecker) : bool :=
  existsb (fun '(key, value) =>
             bool_decide (rule = key) || bool_decide (rule = msg_symbol value))
          (msgs checker).

Definition _get_checker_by_msg (linter : PyLinter) (rule : string)
  : result BaseChecker :=
  match find (declares rule) (get_checkers linter) with
  | Some checker => Ok checker
  | None => Err UnknownMessageError
  end.

Global Arguments _get_checker_by_msg : simpl never.

(** A rule token without a definition or without a checker. *)
Definition unresolved (linter : PyLinter) (rule : string) : Prop :=
  msgs_store linter rule = None
  \/ find (declares rule) (get_checkers linter) = None.

(** ** The patched method *)

(** What a checker class has under [add_message]: the method it had
    before any patch, or a closure [_add_message] with its captured
    [files], [ppfi_messages] and [ppfi_func]. *)
Inductive method :=
| original_add_message
| ppfi_add_message (files : list Path)
                   (ppfi_messages : list MessageDefinition)
                   (ppfi_func : method).

(** One run of the body of [_add_message]. *)
Inductive step :=
| Return
| CallNext (args : list value) (kwargs : list (kwname * value))
| Raise (e : exn).

Section FileSystem.

(** [Path(s).absolute()] in the working directory of the process, which
    stays the same from the load to the emissions, and
    [glob.glob(pattern, recursive=True)] on the file system as it is
    when the configuration is loaded. *)
Context (absolute : string -> Path) (glob : string -> list string).

Definition _add_message (linter : PyLinter) (files : list Path)
    (ppfi_messages : list MessageDefinition)
    (args : list value) (kwargs : list (kwname * value)) : step :=
  match current_file linter with
  | None => Raise AssertionError
  | Some cf =>
      if negb (Str.truthy cf) then Raise AssertionError
      else if bool_decide (absolute cf ∈ files) then
        match args !! 1 with
        | None => Raise IndexError
        | Some x =>
            match get_message_definitions linter x with
            | Err e => Raise e
            | Ok defs =>
                if existsb (fun msg => bool_decide (msg ∈ ppfi_messages)) defs
                then Return
                else CallNext args kwargs
            end
        end
      else CallNext args kwargs
  end.

(** What an emission through a class's [add_message] comes to, every
    closure of the chain having captured the one [linter] of the
    process, whose state at the emission is handed over; [closure] and
    [call_closure] below keep the captured linter of each closure. *)
Inductive outcome :=
| Dropped
| Emitted (args : list value) (kwargs : list (kwname * value))
| Raised (e : exn).

Fixpoint call (m : method) (linter : PyLinter)
    (args : list value) (kwargs : list (kwname * value)) : outcome :=
  match m with
  | original_add_message => Emitted args kwargs
  | ppfi_add_message files ppfi_messages ppfi_func =>
      match _add_message linter files ppfi_messages args kwargs with
      | Return => Dropped
      | CallNext args' kwargs' => call ppfi_func linter args' kwargs'
      | Raise e => Raised e
      end
  end.

(** The captured pairs of a chain of closures, outermost first. *)
Fixpoint layers (m : method) : list (list Path * list MessageDefinition) :=
  match m with
  | original_add_message => []
  | ppfi_add_message files ppfi_messages ppfi_func =>
      (files, ppfi_messages) :: layers ppfi_func
  end.

(** A step without the arguments it passes on. *)
Inductive decision := Suppress | Forward | Fail (e : exn).

Definition decision_of (s : step) : decision :=
  match s with
  | Return => Suppress
  | CallNext _ _ => Forward
  | Raise e => Fail e
  end.

(** The file of the emission is in [files] and a definition of its
    rule is in [ppfi_messages]. *)
Definition listed (files : list Path) (ppfi_messages : list MessageDefinition)
    (F : string) (defs : list MessageDefinition) : Prop :=
  absolute F ∈ files /\ exists msg, msg ∈ defs /\ msg ∈ ppfi_messages.

(** ** [_augment_add_message] *)

(** [checkers[checker].extend(defs)] on the [defaultdict(list)]. *)
Fixpoint checkers_extend (checker : BaseChecker)
    (defs : list MessageDefinition)
    (checkers : list (BaseChecker * list MessageDefinition))
  : list (BaseChecker * list MessageDefinition) :=
  match checkers with
  | [] => [(checker, defs)]
  | (c, messages) :: rest =>
      if checker_eqb checker c then (c, messages ++ defs) :: rest
      else (c, messages) :: checkers_extend checker defs rest
  end.

(** The first loop. *)
Fixpoint resolve_rules (linter : PyLinter) (rules : list string)
    (checkers : list (BaseChecker * list MessageDefinition))
  : result (list (BaseChecker * list MessageDefinition)) :=
  match rules with
  | [] => Ok checkers
  | rule :: rest =>
      match get_message_definitions linter (VStr rule) with
      | Err e => Err e
      | Ok defs =>
          match _get_checker_by_msg linter rule with
          | Err e => Err e
          | Ok checker =>
              resolve_rules linter rest (checkers_extend checker defs checkers)
          end
      end
  end.

(** The class attributes [add_message] of the process. *)
Definition class_getattr (classes : gmap nat method) (cls : nat) : method :=
  default original_add_message (classes !! cls).

(** The second loop. *)
Fixpoint install (files : list Path)
    (checkers : list (BaseChecker * list MessageDefinition))
    (classes : gmap nat method) : gmap nat method :=
  match checkers with
  | [] => classes
  | (checker, messages) :: rest =>
      let add_message_method := class_getattr classes (class_of checker) in
      install files rest
        (<[class_of checker :=
             ppfi_add_message files messages add_message_method]> classes)
  end.

(** The closures the second loop puts on class [cls], innermost
    first. *)
Definition new_layers (files : list Path)
    (checkers : list (BaseChecker * list MessageDefinition)) (cls : nat)
  : list (list Path * list MessageDefinition) :=
  map (fun g => (files, g.2))
      (filter (fun g => class_of g.1 = cls) checkers).

(** Computations that change the class attributes and may raise. *)
Definition Exec (A : Type) : Type :=
  gmap nat method -> result A * gmap nat method.

Definition ret {A} (a : A) : Exec A := fun classes => (Ok a, classes).

Definition raise {A} (e : exn) : Exec A := fun classes => (Err e, classes).

Definition bind {A B} (m : Exec A) (f : A -> Exec B) : Exec B :=
  fun classes =>
    match m classes with
    | (Ok a, classes') => f a classes'
    | (Err e, classes') => (Err e, classes')
    end.

Definition lift {A} (r : result A) : Exec A :=
  fun classes => (r, classes).

Definition modify (f : gmap nat method -> gmap nat method) : Exec unit :=
  fun classes => (Ok tt, f classes).

Notation "'do' x <- m ; k" := (bind m (fun x => k))
  (at level 10, x name, m at level 100, k at level 200).

Definition _augment_add_message (linter : PyLinter)
    (rules : list string) (files : list Path) : Exec unit :=
  do checkers <- lift (resolve_rules linter rules []);
  modify (install files checkers).

(** ** [load_configuration] *)

(** [if pattern.startswith("\n"): pattern = pattern[1:]] *)
Definition without_line_break (pattern : string) : string :=
  if Str.startswith Str.LF pattern then Str.tail pattern else pattern.

(** The body of the loop over [config.items()]. *)
Definition load_item (linter : PyLinter) (item : string * string)
  : Exec unit :=
  let '(pattern, rules_str) := item in
  let pattern := without_line_break pattern in
  let files := map absolute (glob pattern) in
  let rules := parse_rules rules_str in
  _augment_add_message linter rules files.

(** The closures one item puts on class [cls], innermost first. *)
Definition item_layers (linter : PyLinter) (cls : nat)
    (item : string * string) : list (list Path * list MessageDefinition) :=
  match resolve_rules linter (parse_rules item.2) [] with
  | Ok checkers =>
      new_layers (map absolute (glob (without_line_break item.1))) checkers cls
  | Err _ => []
  end.

Fixpoint load_items (linter : PyLinter) (items : list (string * string))
  : Exec unit :=
  match items with
  | [] => ret tt
  | item :: rest => do u <- load_item linter item; load_items linter rest
  end.

Definition load_configuration (linter : PyLinter) : Exec unit :=
  do config <- lift (parse_config (per_file_ignores linter));
  load_items linter (dict_items config).

End FileSystem.

(** ** The linter a closure captured

    [_add_message] reads [linter.current_file] and [linter.msgs_store]
    of the [linter] that was handed to the run of
    [_augment_add_message] which made the closure, not of the linter
    whose checker emits.  The linters of the process are numbered;
    [linters k] is what linter [k] holds when the emission is made.
    With one linter in the process this is [method] and [call]. *)
Inductive closure :=
| original_method
| ppfi_closure (captured : nat) (files : list Path)
               (ppfi_messages : list MessageDefinition)
               (ppfi_func : closure).

(** One run of the body of a closure that captured linter [captured]. *)
Definition closure_step (absolute : string -> Path)
    (linters : nat -> PyLinter) (captured : nat) (files : list Path)
    (ppfi_messages : list MessageDefinition)
    (args : list value) (kwargs : list (kwname * value)) : step :=
  _add_message absolute (linters captured) files ppfi_messages args kwargs.

Fixpoint call_closure (absolute : string -> Path) (linters : nat -> PyLinter)
    (m : closure) (args : list value) (kwargs : list (kwname * value))
  : outcome :=
  match m with
  | original_method => Emitted args kwargs
  | ppfi_closure captured files ppfi_messages ppfi_func =>
      match closure_step absolute linters captured files ppfi_messages
              args kwargs with
      | Return => Dropped
      | CallNext args' kwargs' =>
          call_closure absolute linters ppfi_func args' kwargs'
      | Raise e => Raised e
      end
  end.

(** The chain without the captured linters. *)
Fixpoint forget (m : closure) : method :=
  match m with
  | original_method => original_add_message
  | ppfi_closure _ files ppfi_messages ppfi_func =>
      ppfi_add_message files ppfi_messages (forget ppfi_func)
  end.

(** Every closure of the chain captured linter [k]. *)
Fixpoint captured_all (k : nat) (m : closure) : Prop :=
  match m with
  | original_method => True
  | ppfi_closure captured _ _ ppfi_func =>
      captured = k /\ captured_all k ppfi_func
  end.

Definition closure_getattr (classes : gmap nat closure) (cls : nat) : closure :=
  default original_method (classes !! cls).

(** The second loop of [_augment_add_message] run for linter [k]. *)
Fixpoint install_closures (k : nat) (files : list Path)
    (checkers : list (BaseChecker * list MessageDefinition))
    (classes : gmap nat closure) : gmap nat closure :=
  match checkers with
  | [] => classes
  | (checker, messages) :: rest =>
      let add_message_method := closure_getattr classes (class_of checker) in
      install_closures k files rest
        (<[class_of checker :=
             ppfi_closure k files messages add_message_method]> classes)
  end.

(** Each pattern of the mapping with its list of rule tokens. *)
Definition rule_lists (config : list (string * string))
  : list (string * list string) :=
  map (fun '(pattern, rules_str) => (pattern, parse_rules rules_str)) config.

Definition resolved_mapping (per_file_ignores : string)
  : result (list (string * list string)) :=
  match parse_config per_file_ignores with
  | Ok config => Ok (rule_lists config)
  | Err e => Err e
  end.

(** ** A small project to run the definitions on *)

Module Demo.

Definition absolute (s : string) : Path := "/w/" +:+ s.

Definition glob (pattern : string) : list string :=
  if decide (pattern = "tests/*") then ["tests/a.py"; "tests/b.py"]
  else if decide (pattern = "src/*.py") then ["src/m.py"]
  else [].

Definition imports : BaseChecker :=
  {| name := "imports";
     msgs := [("W0611", ("Unused %s", "unused-import", "unused"));
              ("C0415", ("Import outside toplevel", "import-outside-toplevel", "toplevel"))];
     class_of := 1 |}.

Definition format : BaseChecker :=
  {| name := "format";
     msgs := [("C0301", ("Line too long", "line-too-long", "long"))];
     class_of := 2 |}.

Definition unused_import := {| msgid := "W0611"; symbol := "unused-import" |}.
Definition import_outside := {| msgid := "C0415"; symbol := "import-outside-toplevel" |}.
Definition line_too_long := {| msgid := "C0301"; symbol := "line-too-long" |}.

Definition store (rule : string) : option (list MessageDefinition) :=
  if decide (rule = "W0611" \/ rule = "unused-import") then Some [unused_import]
  else if decide (rule = "C0415" \/ rule = "import-outside-toplevel") then Some [import_outside]
  else if decide (rule = "C0301" \/ rule = "line-too-long") then Some [line_too_long]
  else None.

Definition linter (config : string) (file : option string) : PyLinter :=
  {| per_file_ignores := config;
     current_file := file;
     get_checkers := [imports; format];
     msgs_store := store |}.

Definition lines (l1 l2 : string) : string := l1 +:+ String Str.LF l2.

Definition tests_entry_text : string := "tests/*:unused-import,line-too-long".

Definition multi_line : string := lines "a/*.py:R1,R2" "b/*.py:R3".
Definition flattened : string := "a/*.py:R1,R2,b/*.py:R3".

Definition emit (classes : gmap nat method) (checker : BaseChecker)
    (file : option string) (rule : string) : outcome :=
  call absolute (class_getattr classes (class_of checker))
       (linter "" file) [VObj (class_of checker); VStr rule] [(kw_line, VInt 3)].

(** Two entries for the checker [imports]. *)
Definition two_entries_one_owner : result unit * gmap nat method :=
  load_configuration absolute glob
    (linter (lines "tests/*:unused-import" "src/*.py:C0415") None) ∅.

(** The second entry holds a token that nothing resolves. *)
Definition unknown_rule_second : result unit * gmap nat method :=
  load_configuration absolute glob
    (linter (lines "tests/*:unused-import" "src/*.py:bogus") None) ∅.

(** The unresolved token is on a line whose pattern comes again. *)
Definition unknown_rule_overwritten : result unit * gmap nat method :=
  load_configuration absolute glob
    (linter (lines "tests/*:bogus" "tests/*:unused-import") None) ∅.

Definition kw : list (kwname * value) := [(kw_line, VInt 3)].

(** Two linters in one process: linter 0 loaded the configuration and
    stands at [file], every other linter is checking [tests/a.py]. *)
Definition two_linters (file : option string) (k : nat) : PyLinter :=
  match k with
  | 0 => linter tests_entry_text file
  | _ => linter tests_entry_text (Some "tests/a.py")
  end.

(** A closure that linter 0 installed. *)
Definition closure_of_linter_0 : closure :=
  ppfi_closure 0 ["/w/tests/a.py"; "/w/tests/b.py"] [unused_import]
    original_method.

Definition entries : list (string * string) :=
  [("a/*.py", "R1,R2"); ("b/*.py", "R3")].

(** A class that has one closure already. *)
Definition one_closure : gmap nat method :=
  {[ 1 := ppfi_add_message ["/w/tests/a.py"] [unused_import]
            original_add_message ]}.

(** One pattern on two lines, loaded. *)
Definition repeated_text : string :=
  lines "tests/*:unused-import" "tests/*:line-too-long".

Definition repeated_loaded : gmap nat method :=
  (load_configuration absolute glob (linter repeated_text None) ∅).2.

(** The project's usual configuration, loaded. *)
Definition tests_entry : string := "tests/*:unused-import,line-too-long".

Definition tests_loaded : gmap nat method :=
  (load_configuration absolute glob (linter tests_entry None) ∅).2.

End Demo.

(** ** The two encodings of a list of entries *)

(** [sep.join(lines)] for a one-character separator. *)
Fixpoint join (sep : ascii) (lines : list string) : string :=
  match lines with
  | [] => EmptyString
  | [line] => line
  | line :: rest => line +:+ String sep (join sep rest)
  end.

(** [pattern:rules] *)
Definition entry_line (entry : string * string) : string :=
  entry.1 +:+ String ":" entry.2.

(** One entry per line, and the flat string of [pyproject.toml]. *)
Definition multi_line_encoding (entries : list (string * string)) : string :=
  join Str.LF (map entry_line entries).

Definition flattened_encoding (entries : list (string * string)) : string :=
  join "," (map entry_line entries).

(** What follows the first entry: each further entry after a separator. *)
Fixpoint tail_encoding (sep : ascii) (entries : list (string * string))
  : string :=
  match entries with
  | [] => EmptyString
  | entry :: rest =>
      String sep (entry_line entry +:+ tail_encoding sep rest)
  end.

(** An entry the flat string can carry: a non-empty pattern without
    comma, colon or line break, and a rule list without colon or line
    break. *)
Definition plain_entry (entry : string * string) : Prop :=
  entry.1 <> EmptyString
  /\ Str.contains "," entry.1 = false
  /\ Str.contains ":" entry.1 = false
  /\ Str.contains Str.LF entry.1 = false
  /\ Str.contains ":" entry.2 = false
  /\ Str.contains Str.LF entry.2 = false.

(** Every character is white space. *)
Fixpoint blank (s : string) : bool :=
  match s with
  | EmptyString => true
  | String x s' => Str.isspace x && blank s'
  end.

(** ** Owners and groups *)

(** [checker] is what [_get_checker_by_msg] returns for [rule]. *)
Definition owner (linter : PyLinter) (rule : string) (checker : BaseChecker)
  : Prop :=
  _get_checker_by_msg linter rule = Ok checker.

(** Every key of the [defaultdict] is the owner of a rule among [R]. *)
Definition owner_keys (linter : PyLinter) (R : string -> Prop)
    (checkers : list (BaseChecker * list MessageDefinition)) : Prop :=
  forall c messages, (c, messages) ∈ checkers -> exists r, R r /\ owner linter r c.

(** No two keys of the [defaultdict] are equal as [BaseChecker.__eq__]
    has it. *)
Fixpoint distinct_keys
    (checkers : list (BaseChecker * list MessageDefinition)) : Prop :=
  match checkers with
  | [] => True
  | (c, _) :: rest =>
      Forall (fun g => checker_eqb c g.1 = false) rest /\ distinct_keys rest
  end.

(** The linter with other checkers registered. *)
Definition with_checkers (linter : PyLinter) (checkers : list BaseChecker)
  : PyLinter :=
  {| per_file_ignores := per_file_ignores linter;
     current_file := current_file linter;
     get_checkers := checkers;
     msgs_store := msgs_store linter |}.

(** ** The plugin's own checker

    [PerFileIgnoresChecker] sets neither [name] nor [msgs]: it has
    [BaseChecker]'s empty name and empty catalogue, and one option,
    [per-file-ignores], a string with default [""]. *)
Definition PerFileIgnoresChecker (cls : nat) : BaseChecker :=
  {| name := EmptyString; msgs := []; class_of := cls |}.

Definition per_file_ignores_default : string := EmptyString.

(** The demo project's linter once the plugin is registered. *)
Definition demo_linter_with_plugin (config : string) : PyLinter :=
  with_checkers (Demo.linter config None)
    [Demo.imports; PerFileIgnoresChecker 9; Demo.format].

(** * Properties *)

(** ** Splitting *)

Section StrFacts.

Variable sep : ascii.

Lemma contains_count (s : string) :
  Str.contains sep s = false <-> Str.count sep s = 0.
Proof.
  induction s as [|x s IH]; simpl; [done|].
  destruct (Ascii.eqb x sep); simpl; [split; [done | lia]|].
  exact IH.
Qed.

Lemma split_length (s : string) :
  length (Str.split sep s) = S (Str.count sep s).
Proof.
  induction s as [|x s IH]; simpl; [done|].
  destruct (Ascii.eqb x sep); simpl; [by rewrite IH|].
  destruct (Str.split sep s) as [|w ws]; simpl in *; lia.
Qed.

Lemma split_first (p r : string) :
  Str.contains sep p = false ->
  Str.split sep (p +:+ String sep r) = p :: Str.split sep r.
Proof.
  induction p as [|x p IH]; simpl.
  - intros _. by rewrite Ascii.eqb_refl.
  - destruct (Ascii.eqb x sep); simpl; [done|].
    intros Hp. by rewrite (IH Hp).
Qed.

Lemma split_none (s : string) :
  Str.contains sep s = false -> Str.split sep s = [s].
Proof.
  induction s as [|x s IH]; simpl; [done|].
  destruct (Ascii.eqb x sep); simpl; [done|].
  intros Hs. by rewrite (IH Hs).
Qed.

(** A string with a separator, cut at the first one. *)
Lemma count_pos_cut (s : string) :
  0 < Str.count sep s ->
  exists p r, s = p +:+ String sep r /\ Str.contains sep p = false
              /\ Str.count sep s = S (Str.count sep r).
Proof.
  induction s as [|x s IH]; simpl; [lia|].
  destruct (Ascii.eqb x sep) eqn:Hx; simpl.
  - apply Ascii.eqb_eq in Hx as ->. intros _.
    exists EmptyString, s. done.
  - intros Hs. destruct (IH Hs) as (p & r & -> & Hp & Hc).
    exists (String x p), r. simpl. by rewrite Hx.
Qed.

End StrFacts.

(** ** The built-in [dict] *)

Lemma dict_get_set (k v k' : string) (d : list (string * string)) :
  dict_get k' (dict_set k v d) = if decide (k' = k) then Some v else dict_get k' d.
Proof.
  induction d as [|[k0 v0] d IH]; simpl.
  - destruct (decide (k' = k)); done.
  - destruct (decide (k = k0)) as [->|Hk]; simpl.
    + destruct (decide (k' = k0)); done.
    + destruct (decide (k' = k0)) as [->|Hk'].
      * destruct (decide (k0 = k)); congruence.
      * exact IH.
Qed.

Lemma dict_set_keys (k v : string) (d : list (string * string)) :
  d.*1 ⊆ (dict_set k v d).*1 /\
  (forall k', k' ∈ (dict_set k v d).*1 -> k' = k \/ k' ∈ d.*1).
Proof.
  induction d as [|[k0 v0] d [IH1 IH2]]; simpl.
  - split; [set_solver|]. intros k'. rewrite list_elem_of_singleton. auto.
  - destruct (decide (k = k0)) as [->|Hk]; simpl.
    + split; [done|]. auto.
    + split.
      * intros k'. rewrite !elem_of_cons. intros [->|Hin]; [by left|].
        right. by apply IH1.
      * intros k'. rewrite !elem_of_cons.
        intros [->|Hin]; [auto|]. destruct (IH2 _ Hin); auto.
Qed.

Lemma dict_set_NoDup (k v : string) (d : list (string * string)) :
  NoDup d.*1 -> NoDup (dict_set k v d).*1.
Proof.
  induction d as [|[k0 v0] d IH]; simpl.
  - intros _. apply NoDup_singleton.
  - rewrite NoDup_cons. intros [Hk0 Hd].
    destruct (decide (k = k0)) as [->|Hk]; simpl.
    + by apply NoDup_cons.
    + apply NoDup_cons. split; [|by apply IH].
      intros Hin. apply (dict_set_keys k v d) in Hin as [->|Hin]; done.
Qed.

Lemma dict_get_Some (k v : string) (d : list (string * string)) :
  NoDup d.*1 -> (dict_get k d = Some v <-> (k, v) ∈ d).
Proof.
  induction d as [|[k0 v0] d IH]; simpl.
  - intros _. split; [done|]. by intros ?%elem_of_nil.
  - rewrite NoDup_cons. intros [Hk0 Hd]. rewrite elem_of_cons.
    destruct (decide (k = k0)) as [->|Hk].
    + split; [intros [= ->]; by left|].
      intros [[= ->]|Hin]; [done|].
      destruct Hk0. apply list_elem_of_fmap. by exists (k0, v).
    + rewrite (IH Hd). split; [by right|]. intros [[= -> ->]|]; done.
Qed.


Lemma dict_update_bad (items : list (list string)) (item : list string) :
  item ∈ items -> length item <> 2 ->
  forall d, dict_update d items = Err ValueError.
Proof.
  intros Hin Hlen. induction items as [|it items IH]; intros d.
  - by apply elem_of_nil in Hin.
  - apply elem_of_cons in Hin as [<-|Hin].
    + destruct item as [|a [|b [|c item]]]; simpl in *; done.
    + destruct it as [|a [|b [|c it]]]; simpl; auto.
Qed.

Lemma dict_update_good (items : list (list string)) :
  Forall (fun item => length item = 2) items ->
  forall d, exists config, dict_update d items = Ok config.
Proof.
  induction 1 as [|it items Hit _ IH]; intros d; simpl; [eauto|].
  destruct it as [|a [|b [|c it]]]; simpl in *; first [done | apply IH].
Qed.

Lemma dict_update_app (items1 items2 : list (list string)) :
  forall d, dict_update d (items1 ++ items2) =
            match dict_update d items1 with
            | Ok d' => dict_update d' items2
            | Err e => Err e
            end.
Proof.
  induction items1 as [|it items1 IH]; intros d; simpl; [done|].
  destruct it as [|a [|b [|c it]]]; simpl; auto.
Qed.

Lemma dict_update_NoDup (items : list (list string)) :
  forall d config, dict_update d items = Ok config ->
                   NoDup d.*1 -> NoDup config.*1.
Proof.
  induction items as [|it items IH]; intros d config; simpl.
  - by intros [= ->].
  - destruct it as [|a [|b [|c it]]]; simpl; try done.
    intros Hup Hd. eapply IH; [done|]. by apply dict_set_NoDup.
Qed.

(** Without a later line for [k], the value of [k] stays. *)
Lemma dict_update_get_other (items : list (list string)) (k : string) :
  Forall (fun item => key_of item <> Some k) items ->
  forall d config, dict_update d items = Ok config ->
                   dict_get k config = dict_get k d.
Proof.
  induction 1 as [|it items Hit _ IH]; intros d config; simpl.
  - by intros [= ->].
  - destruct it as [|a [|b [|c it]]]; simpl in *; try done.
    intros Hup. rewrite (IH _ _ Hup), dict_get_set.
    destruct (decide (k = a)); congruence.
Qed.

(** The last line for [k] decides its value. *)
Lemma dict_update_get_last (items1 items2 : list (list string))
    (k v : string) (d config : list (string * string)) :
  dict_update d (items1 ++ [k; v] :: items2) = Ok config ->
  Forall (fun item => key_of item <> Some k) items2 ->
  dict_get k config = Some v.
Proof.
  rewrite dict_update_app. destruct (dict_update d items1) as [d'|]; [|done].
  simpl. intros Hup Hlast.
  rewrite (dict_update_get_other _ _ Hlast _ _ Hup), dict_get_set.
  by destruct (decide (k = k)).
Qed.

(** ** Parsing the configuration *)

Example parse_multi_line :
  _parse_string Demo.multi_line = ["a/*.py:R1,R2"; "b/*.py:R3"].
Proof. reflexivity. Qed.

Example re_sub_flattened : re_sub Demo.flattened = Demo.multi_line.
Proof. reflexivity. Qed.

Example re_sub_scans_left_to_right :
  re_sub ",a:,b,c:d,:e" =
  String Str.LF "a:,b" +:+ String Str.LF "c:d,:e".
Proof. reflexivity. Qed.

Example parse_rules_strips : parse_rules " W0611, C0114 ,," = ["W0611"; "C0114"].
Proof. reflexivity. Qed.

(** C4: the multi-line text and its flattened form give the same
    mapping from pattern to rule list, and the same rule tokens. *)
Theorem C4_encodings_agree :
  parse_config Demo.multi_line = parse_config Demo.flattened
  /\ parse_config Demo.flattened = Ok [("a/*.py", "R1,R2"); ("b/*.py", "R3")]
  /\ resolved_mapping Demo.multi_line = resolved_mapping Demo.flattened
  /\ resolved_mapping Demo.flattened =
     Ok [("a/*.py", ["R1"; "R2"]); ("b/*.py", ["R3"])].
Proof. repeat split; reflexivity. Qed.

Section Loader.

Context (absolute : string -> Path) (glob : string -> list string).

Lemma load_configuration_parsed (linter : PyLinter)
    (config : list (string * string)) (classes : gmap nat method) :
  parse_config (per_file_ignores linter) = Ok config ->
  load_configuration absolute glob linter classes =
  load_items absolute glob linter (dict_items config) classes.
Proof. unfold load_configuration, bind, lift. by intros ->. Qed.

(** A line that does not split in two stops the load before the
    first class is touched. *)
Lemma load_configuration_bad_line (linter : PyLinter) (item : string)
    (classes : gmap nat method) :
  item ∈ _parse_string (per_file_ignores linter) ->
  length (Str.split ":" item) <> 2 ->
  load_configuration absolute glob linter classes = (Err ValueError, classes).
Proof.
  intros Hin Hlen. unfold load_configuration, bind, lift, parse_config.
  rewrite (dict_update_bad _ (Str.split ":" item)); [done| |done].
  apply list_elem_of_fmap. by exists item.
Qed.

(** C6: a line without a colon makes the load fail with ValueError
    (the ConfigError of the specification), the class attributes
    being as they were. *)
Theorem C6_line_without_colon (linter : PyLinter) (item : string)
    (classes : gmap nat method) :
  item ∈ _parse_string (per_file_ignores linter) ->
  Str.contains ":" item = false ->
  load_configuration absolute glob linter classes = (Err ValueError, classes).
Proof.
  intros Hin Hno. apply (load_configuration_bad_line _ item); [done|].
  rewrite split_length. apply contains_count in Hno. lia.
Qed.

(** C5, as the code has it: a line with exactly one colon is cut there
    into pattern and rule list; a line with more than one colon makes
    the load fail with ValueError; when every line has exactly one
    colon the mapping is built. *)
Theorem C5_one_colon_splits_in_two (item : string) :
  (Str.count ":" item = 1 ->
   exists pattern rules_str,
     Str.split ":" item = [pattern; rules_str]
     /\ item = pattern +:+ String ":" rules_str
     /\ forall d, dict_update d [Str.split ":" item] =
                  Ok (dict_set pattern rules_str d))
  /\ (1 < Str.count ":" item ->
      forall linter classes,
        item ∈ _parse_string (per_file_ignores linter) ->
        load_configuration absolute glob linter classes =
        (Err ValueError, classes))
  /\ (forall per_file_ignores,
        Forall (fun line => Str.count ":" line = 1)
               (_parse_string per_file_ignores) ->
        exists config, parse_config per_file_ignores = Ok config).
Proof.
  split; [|split]; cycle 2.
  { intros per_file_ignores Hall. apply dict_update_good, Forall_fmap.
    eapply Forall_impl; [exact Hall|]. intros line Hone. simpl.
    by rewrite split_length, Hone. }
  - intros Hone. destruct (count_pos_cut ":" item) as (p & r & -> & Hp & Hc);
      [lia|].
    assert (Str.contains ":" r = false) as Hr
      by (apply contains_count; lia).
    exists p, r. rewrite (split_first _ _ _ Hp), (split_none _ _ Hr). done.
  - intros Hmany linter classes Hin.
    apply (load_configuration_bad_line _ item); [done|].
    rewrite split_length. lia.
Qed.


(** ** One closure *)


Lemma any_in_spec (defs ppfi_messages : list MessageDefinition) :
  existsb (fun msg => bool_decide (msg ∈ ppfi_messages)) defs = true <->
  exists msg, msg ∈ defs /\ msg ∈ ppfi_messages.
Proof.
  rewrite existsb_exists. split; intros (msg & Hin & Hm); exists msg.
  - split; [by apply list_elem_of_In | by apply bool_decide_eq_true in Hm].
  - split; [by apply list_elem_of_In | by apply bool_decide_eq_true].
Qed.

Lemma _add_message_known (linter : PyLinter) (files : list Path)
    (ppfi_messages : list MessageDefinition) (args : list value)
    (kwargs : list (kwname * value)) (F R : string)
    (defs : list MessageDefinition) :
  current_file linter = Some F -> Str.truthy F = true ->
  args !! 1 = Some (VStr R) -> msgs_store linter R = Some defs ->
  _add_message absolute linter files ppfi_messages args kwargs =
  if bool_decide (absolute F ∈ files)
     && existsb (fun msg => bool_decide (msg ∈ ppfi_messages)) defs
  then Return else CallNext args kwargs.
Proof.
  intros Hcf HF Harg Hdefs. unfold _add_message, get_message_definitions.
  rewrite Hcf, HF. simpl. destruct (bool_decide (absolute F ∈ files)); [|done].
  rewrite Harg, Hdefs. simpl. by destruct (existsb _ defs).
Qed.

Lemma listed_spec (files : list Path) (ppfi_messages : list MessageDefinition)
    (F : string) (defs : list MessageDefinition) :
  bool_decide (absolute F ∈ files)
  && existsb (fun msg => bool_decide (msg ∈ ppfi_messages)) defs = true
  <-> listed absolute files ppfi_messages F defs.
Proof.
  unfold listed. rewrite andb_true_iff, bool_decide_eq_true, any_in_spec. done.
Qed.

(** C1, as the code has it: with a current file [F], a closure calls
    the captured method with the arguments it was given whenever [F]
    is not in its files, whatever the rule argument is; with [F] in its
    files and a positional rule argument [R] that the store knows, it
    returns without calling on exactly when a definition of [R] is in
    its messages, and calls on unchanged otherwise; with [F] in its
    files and [R] unknown to the store it raises UnknownMessageError.
    It never returns without calling on unless file and rule are both
    listed. *)
Theorem C1_drop_forward_or_unknown_rule (linter : PyLinter)
    (files : list Path) (ppfi_messages : list MessageDefinition)
    (ppfi_func : method) (args : list value)
    (kwargs : list (kwname * value)) (F : string) :
  current_file linter = Some F -> Str.truthy F = true ->
  (absolute F ∉ files ->
   _add_message absolute linter files ppfi_messages args kwargs =
   CallNext args kwargs
   /\ call absolute (ppfi_add_message files ppfi_messages ppfi_func)
           linter args kwargs =
      call absolute ppfi_func linter args kwargs)
  /\ (forall R defs,
        args !! 1 = Some (VStr R) -> msgs_store linter R = Some defs ->
        (_add_message absolute linter files ppfi_messages args kwargs = Return
         <-> listed absolute files ppfi_messages F defs)
        /\ (listed absolute files ppfi_messages F defs ->
            call absolute (ppfi_add_message files ppfi_messages ppfi_func)
                 linter args kwargs = Dropped)
        /\ (~ listed absolute files ppfi_messages F defs ->
            _add_message absolute linter files ppfi_messages args kwargs =
            CallNext args kwargs
            /\ call absolute (ppfi_add_message files ppfi_messages ppfi_func)
                    linter args kwargs =
               call absolute ppfi_func linter args kwargs))
  /\ (forall R,
        absolute F ∈ files ->
        args !! 1 = Some (VStr R) -> msgs_store linter R = None ->
        _add_message absolute linter files ppfi_messages args kwargs =
        Raise UnknownMessageError
        /\ call absolute (ppfi_add_message files ppfi_messages ppfi_func)
                linter args kwargs = Raised UnknownMessageError)
  /\ (_add_message absolute linter files ppfi_messages args kwargs = Return ->
      exists R defs,
        args !! 1 = Some (VStr R) /\ msgs_store linter R = Some defs
        /\ listed absolute files ppfi_messages F defs).
Proof.
  intros Hcf HF. split; [|split; [|split]].
  - intros Hout. simpl. unfold _add_message. rewrite Hcf, HF. simpl.
    by rewrite (bool_decide_eq_false_2 _ Hout).
  - intros R defs Harg Hdefs. simpl.
    rewrite (_add_message_known _ _ _ _ _ _ _ _ Hcf HF Harg Hdefs).
    pose proof (listed_spec files ppfi_messages F defs) as Hl.
    destruct (bool_decide _ && existsb _ defs).
    + assert (listed absolute files ppfi_messages F defs) as Hy
        by (by apply Hl).
      split; [|split]; [done|done|]. intros Hn. by destruct Hn.
    + assert (~ listed absolute files ppfi_messages F defs) as Hn
        by (intros H%Hl; done).
      split; [|split]; [|done|done]. split; [done|]. intros Hy. by destruct Hn.
  - intros R Hin Harg Hnone. simpl. unfold _add_message, get_message_definitions.
    rewrite Hcf, HF. simpl. rewrite (bool_decide_eq_true_2 _ Hin).
    by rewrite Harg, Hnone.
  - unfold _add_message, get_message_definitions. rewrite Hcf, HF. simpl.
    destruct (bool_decide (absolute F ∈ files)) eqn:Hfile; [|done].
    destruct (args !! 1) as [[|R| |]|]; try done.
    destruct (msgs_store linter R) as [defs|] eqn:Hstore; [|done].
    destruct (existsb _ defs) eqn:Hany; [|done].
    intros _. exists R, defs. do 2 (split; [done|]).
    apply listed_spec. by rewrite Hfile, Hany.
Qed.

(** ** A chain of closures *)


(** An emission is dropped by one of the closures of the chain. *)
Lemma call_dropped_layer (m : method) (linter : PyLinter)
    (args : list value) (kwargs : list (kwname * value)) :
  call absolute m linter args kwargs = Dropped ->
  exists files ppfi_messages,
    (files, ppfi_messages) ∈ layers m
    /\ _add_message absolute linter files ppfi_messages args kwargs = Return.
Proof.
  induction m as [|files ppfi_messages ppfi_func IH]; simpl; [done|].
  destruct (_add_message absolute linter files ppfi_messages args kwargs)
    as [|args' kwargs'|e] eqn:Hstep; [| |done].
  - intros _. exists files, ppfi_messages. split; [apply elem_of_cons; by left|done].
  - assert (args' = args /\ kwargs' = kwargs) as [-> ->].
    { unfold _add_message in Hstep.
      repeat (case_match; try done); by injection Hstep as <- <-. }
    intros (fs & ms & Hin & Hret)%IH. exists fs, ms.
    split; [apply elem_of_cons; by right|done].
Qed.

Lemma call_dropped_iff (m : method) (linter : PyLinter)
    (args : list value) (kwargs : list (kwname * value)) (F R : string)
    (defs : list MessageDefinition) :
  current_file linter = Some F -> Str.truthy F = true ->
  args !! 1 = Some (VStr R) -> msgs_store linter R = Some defs ->
  (call absolute m linter args kwargs = Dropped <->
   exists files ppfi_messages,
     (files, ppfi_messages) ∈ layers m
     /\ listed absolute files ppfi_messages F defs).
Proof.
  intros Hcf HF Harg Hdefs.
  induction m as [|files ppfi_messages ppfi_func IH]; simpl.
  - split; [done|]. by intros (? & ? & ?%elem_of_nil & _).
  - rewrite (_add_message_known _ _ _ _ _ _ _ _ Hcf HF Harg Hdefs).
    pose proof (listed_spec files ppfi_messages F defs) as Hl.
    destruct (bool_decide _ && existsb _ defs).
    + split; [|done]. intros _. exists files, ppfi_messages.
      split; [apply elem_of_cons; by left | by apply Hl].
    + rewrite IH. split.
      * intros (fs & ms & Hin & Hls). exists fs, ms.
        split; [apply elem_of_cons; by right|done].
      * intros (fs & ms & Hin & Hls).
        apply elem_of_cons in Hin as [[= -> ->]|Hin].
        -- apply Hl in Hls. done.
        -- by exists fs, ms.
Qed.

(** ** Installing *)

Lemma class_getattr_insert (classes : gmap nat method) (cls cls' : nat)
    (m : method) :
  class_getattr (<[cls := m]> classes) cls' =
  if decide (cls = cls') then m else class_getattr classes cls'.
Proof. unfold class_getattr. rewrite lookup_insert. by case_decide. Qed.

(** What class [cls] has after the second loop: its method before,
    wrapped once for each checker of that class, in order. *)
Lemma install_getattr (files : list Path)
    (checkers : list (BaseChecker * list MessageDefinition)) (cls : nat) :
  forall classes,
    class_getattr (install files checkers classes) cls =
    fold_left (fun m layer => ppfi_add_message layer.1 layer.2 m)
              (new_layers files checkers cls) (class_getattr classes cls).
Proof.
  unfold new_layers.
  induction checkers as [|[checker messages] rest IH]; intros classes;
    simpl; [done|].
  rewrite IH, class_getattr_insert, filter_cons. simpl.
  destruct (decide (class_of checker = cls)) as [->|Hne]; done.
Qed.

Lemma layers_fold_left (new : list (list Path * list MessageDefinition)) :
  forall m,
    layers (fold_left (fun m layer => ppfi_add_message layer.1 layer.2 m) new m)
    = rev new ++ layers m.
Proof.
  induction new as [|[files messages] new IH]; intros m; simpl; [done|].
  rewrite IH. simpl. by rewrite <- app_assoc.
Qed.

Lemma _augment_add_message_run (linter : PyLinter) (rules : list string)
    (files : list Path) (classes : gmap nat method) :
  _augment_add_message linter rules files classes =
  match resolve_rules linter rules [] with
  | Ok checkers => (Ok tt, install files checkers classes)
  | Err e => (Err e, classes)
  end.
Proof.
  unfold _augment_add_message, bind, lift, modify.
  by destruct (resolve_rules linter rules []).
Qed.

Lemma load_item_run (linter : PyLinter) (pattern rules_str : string)
    (classes : gmap nat method) :
  load_item absolute glob linter (pattern, rules_str) classes =
  match resolve_rules linter (parse_rules rules_str) [] with
  | Ok checkers =>
      (Ok tt, install (map absolute (glob (without_line_break pattern)))
                      checkers classes)
  | Err e => (Err e, classes)
  end.
Proof. unfold load_item. apply _augment_add_message_run. Qed.

Lemma load_items_app (linter : PyLinter) (items1 items2 : list (string * string)) :
  forall classes,
    load_items absolute glob linter (items1 ++ items2) classes =
    match load_items absolute glob linter items1 classes with
    | (Ok _, classes1) => load_items absolute glob linter items2 classes1
    | (Err e, classes1) => (Err e, classes1)
    end.
Proof.
  induction items1 as [|item items1 IH]; intros classes; simpl; [done|].
  unfold bind.
  destruct (load_item absolute glob linter item classes) as [[[]|e] classes1];
    [apply IH | done].
Qed.

(** ** Resolving rule tokens *)

Lemma get_message_definitions_str (linter : PyLinter) (rule : string) (e : exn) :
  get_message_definitions linter (VStr rule) = Err e ->
  e = UnknownMessageError /\ msgs_store linter rule = None.
Proof.
  unfold get_message_definitions.
  destruct (msgs_store linter rule); [done|]. by intros [= <-].
Qed.

Lemma _get_checker_by_msg_err (linter : PyLinter) (rule : string) (e : exn) :
  _get_checker_by_msg linter rule = Err e ->
  e = UnknownMessageError
  /\ find (declares rule) (get_checkers linter) = None.
Proof.
  unfold _get_checker_by_msg.
  destruct (find _ _); [done|]. by intros [= <-].
Qed.


Lemma resolve_rules_err (linter : PyLinter) (rules : list string) (e : exn) :
  forall checkers,
    resolve_rules linter rules checkers = Err e -> e = UnknownMessageError.
Proof.
  induction rules as [|rule rules IH]; intros checkers; simpl; [done|].
  destruct (get_message_definitions linter (VStr rule)) as [defs|e1] eqn:Hd.
  - destruct (_get_checker_by_msg linter rule) as [c|e2] eqn:Hc; [apply IH|].
    intros [= <-]. by apply _get_checker_by_msg_err in Hc as [-> _].
  - intros [= <-]. by apply get_message_definitions_str in Hd as [-> _].
Qed.

Lemma resolve_rules_unresolved (linter : PyLinter) (rules : list string)
    (rule : string) :
  rule ∈ rules -> unresolved linter rule ->
  forall checkers,
    resolve_rules linter rules checkers = Err UnknownMessageError.
Proof.
  intros Hin Hbad. induction rules as [|r rules IH]; intros checkers.
  - by apply elem_of_nil in Hin.
  - destruct (resolve_rules linter (r :: rules) checkers) as [cs|e] eqn:Hres.
    + exfalso. simpl in Hres.
      destruct (get_message_definitions linter (VStr r)) as [defs|] eqn:Hd;
        [|done].
      destruct (_get_checker_by_msg linter r) as [c|] eqn:Hc; [|done].
      apply elem_of_cons in Hin as [->|Hin].
      * unfold _get_checker_by_msg in Hc. unfold get_message_definitions in Hd.
        destruct Hbad as [Hbad|Hbad]; rewrite Hbad in *; done.
      * rewrite (IH Hin) in Hres. done.
    + by apply resolve_rules_err in Hres as ->.
Qed.

Lemma load_items_err (linter : PyLinter) (items : list (string * string)) (e : exn) :
  forall classes classes',
    load_items absolute glob linter items classes = (Err e, classes') ->
    e = UnknownMessageError.
Proof.
  induction items as [|[pattern rules_str] items IH]; intros classes classes';
    [done|].
  cbn [load_items]. unfold bind. rewrite load_item_run.
  destruct (resolve_rules linter (parse_rules rules_str) []) as [cs|e'] eqn:Hres.
  - apply IH.
  - intros [= <- _]. by apply resolve_rules_err in Hres.
Qed.

Lemma checkers_extend_messages (checker : BaseChecker)
    (defs : list MessageDefinition)
    (checkers : list (BaseChecker * list MessageDefinition))
    (c : BaseChecker) (messages : list MessageDefinition)
    (msg : MessageDefinition) :
  (c, messages) ∈ checkers_extend checker defs checkers -> msg ∈ messages ->
  msg ∈ defs \/ exists messages', (c, messages') ∈ checkers /\ msg ∈ messages'.
Proof.
  induction checkers as [|[c0 ms0] rest IH]; simpl.
  - intros [= -> ->]%list_elem_of_singleton. auto.
  - destruct (checker_eqb checker c0).
    + intros [[= -> ->]|Hin]%elem_of_cons Hmsg.
      * apply elem_of_app in Hmsg as [Hmsg|Hmsg]; [|auto].
        right. exists ms0. split; [apply elem_of_cons; by left|done].
      * right. exists messages. split; [apply elem_of_cons; by right|done].
    + intros [[= -> ->]|Hin]%elem_of_cons Hmsg.
      * right. exists ms0. split; [apply elem_of_cons; by left|done].
      * destruct (IH Hin Hmsg) as [|(ms' & Hin' & Hmsg')]; [auto|].
        right. exists ms'. split; [apply elem_of_cons; by right|done].
Qed.

(** Every message of a group is a definition of one of the rules. *)
Lemma resolve_rules_messages (linter : PyLinter) (rules : list string) :
  forall acc checkers,
    resolve_rules linter rules acc = Ok checkers ->
    forall c messages msg,
      (c, messages) ∈ checkers -> msg ∈ messages ->
      (exists rule defs, rule ∈ rules /\ msgs_store linter rule = Some defs
                         /\ msg ∈ defs)
      \/ (exists messages', (c, messages') ∈ acc /\ msg ∈ messages').
Proof.
  induction rules as [|rule rules IH]; intros acc checkers; simpl.
  - intros [= ->] c messages msg Hin Hmsg. right. by exists messages.
  - destruct (get_message_definitions linter (VStr rule)) as [defs|] eqn:Hd;
      [|done].
    destruct (_get_checker_by_msg linter rule) as [checker|]; [|done].
    unfold get_message_definitions in Hd.
    destruct (msgs_store linter rule) as [defs'|] eqn:Hstore; [|done].
    injection Hd as ->.
    intros Hres c messages msg Hin Hmsg.
    destruct (IH _ _ Hres _ _ _ Hin Hmsg)
      as [(r & ds & Hr & Hds & Hm)|(ms' & Hin' & Hmsg')].
    + left. exists r, ds. split; [apply elem_of_cons; by right|done].
    + destruct (checkers_extend_messages _ _ _ _ _ _ Hin' Hmsg')
        as [Hm|Hold]; [|by right].
      left. exists rule, defs. split; [apply elem_of_cons; by left|done].
Qed.

Lemma item_layers_justified (linter : PyLinter) (cls : nat)
    (pattern rules_str : string) (files : list Path)
    (messages : list MessageDefinition) (msg : MessageDefinition) :
  (files, messages) ∈ item_layers absolute glob linter cls (pattern, rules_str) ->
  msg ∈ messages ->
  files = map absolute (glob (without_line_break pattern))
  /\ exists rule defs, rule ∈ parse_rules rules_str
                       /\ msgs_store linter rule = Some defs /\ msg ∈ defs.
Proof.
  unfold item_layers, new_layers. simpl.
  destruct (resolve_rules linter (parse_rules rules_str) []) as [cs|] eqn:Hres;
    [|by intros ?%elem_of_nil].
  intros ([c ms] & [= -> ->] & [_ Hin]%list_elem_of_filter)%list_elem_of_fmap Hmsg.
  split; [done|].
  destruct (resolve_rules_messages _ _ _ _ Hres _ _ _ Hin Hmsg)
    as [?|(? & ?%elem_of_nil & _)]; done.
Qed.

(** After a load that succeeds, class [cls] has the closures of every
    item of the mapping, the last item's outermost, around what it
    had. *)
Lemma load_items_layers (linter : PyLinter) (items : list (string * string))
    (cls : nat) :
  forall classes classes',
    load_items absolute glob linter items classes = (Ok tt, classes') ->
    layers (class_getattr classes' cls) =
    rev (concat (map (item_layers absolute glob linter cls) items))
    ++ layers (class_getattr classes cls).
Proof.
  induction items as [|[pattern rules_str] items IH]; intros classes classes'.
  - by intros [= ->].
  - cbn [load_items]. unfold bind. rewrite load_item_run.
    destruct (resolve_rules linter (parse_rules rules_str) []) as [cs|] eqn:Hres;
      [|done].
    intros Hload. rewrite (IH _ _ Hload), install_getattr, layers_fold_left.
    cbn [map concat]. rewrite rev_app_distr, <- app_assoc.
    do 2 f_equal. unfold item_layers. cbn [fst snd]. by rewrite Hres.
Qed.

Lemma _add_message_return (linter : PyLinter) (files : list Path)
    (ppfi_messages : list MessageDefinition) (args : list value)
    (kwargs : list (kwname * value)) :
  _add_message absolute linter files ppfi_messages args kwargs = Return ->
  exists F R defs,
    current_file linter = Some F /\ Str.truthy F = true
    /\ args !! 1 = Some (VStr R) /\ msgs_store linter R = Some defs
    /\ listed absolute files ppfi_messages F defs.
Proof.
  unfold _add_message, get_message_definitions.
  destruct (current_file linter) as [F|]; [|done].
  destruct (Str.truthy F) eqn:HF; [|done]. simpl.
  destruct (bool_decide (absolute F ∈ files)) eqn:Hfile; [|done].
  destruct (args !! 1) as [[|R| |]|]; try done.
  destruct (msgs_store linter R) as [defs|] eqn:Hstore; [|done].
  destruct (existsb _ defs) eqn:Hany; [|done].
  intros _. exists F, R, defs. do 4 (split; [done|]).
  apply listed_spec. by rewrite Hfile, Hany.
Qed.

(** Closures that captured no file let every emission through. *)
Lemma call_no_files (new : list (list Path * list MessageDefinition))
    (linter : PyLinter) (args : list value) (kwargs : list (kwname * value)) :
  Forall (fun layer => layer.1 = []) new ->
  forall m,
    (call absolute
       (fold_left (fun m layer => ppfi_add_message layer.1 layer.2 m) new m)
       linter args kwargs = Dropped ->
     call absolute m linter args kwargs = Dropped)
    /\ (forall F, current_file linter = Some F -> Str.truthy F = true ->
         call absolute
           (fold_left (fun m layer => ppfi_add_message layer.1 layer.2 m) new m)
           linter args kwargs
         = call absolute m linter args kwargs).
Proof.
  induction 1 as [|[files messages] new Hfiles _ IH]; intros m; simpl; [done|].
  simpl in Hfiles. subst files.
  destruct (IH (ppfi_add_message [] messages m)) as [IH1 IH2]. split.
  - intros Hdrop%IH1. simpl in Hdrop. unfold _add_message in Hdrop.
    destruct (current_file linter) as [F|]; [|done].
    destruct (negb (Str.truthy F)); done.
  - intros F Hcf HF. rewrite (IH2 F Hcf HF). simpl. unfold _add_message.
    by rewrite Hcf, HF.
Qed.

Lemma elem_of_rev_concat_map {A B} (f : A -> list B) (l : list A) (y : B) :
  y ∈ rev (concat (map f l)) <-> exists x, x ∈ l /\ y ∈ f x.
Proof.
  rewrite list_elem_of_In, <- in_rev, in_concat. split.
  - intros (ys & (x & <- & Hx)%in_map_iff & Hy).
    exists x. by rewrite !list_elem_of_In.
  - intros (x & Hx & Hy). exists (f x). rewrite in_map_iff.
    split; [exists x|]; by rewrite <- ?list_elem_of_In.
Qed.

(** Whatever is dropped after a load was dropped before it, or is
    listed by one item of the mapping: the current file is among the
    files of its pattern and one of its rule tokens has a definition
    of the emitted rule. *)
Lemma load_dropped_justified (linter : PyLinter)
    (items : list (string * string)) (classes classes' : gmap nat method)
    (cls : nat) (linter' : PyLinter) (args : list value)
    (kwargs : list (kwname * value)) :
  load_items absolute glob linter items classes = (Ok tt, classes') ->
  call absolute (class_getattr classes' cls) linter' args kwargs = Dropped ->
  call absolute (class_getattr classes cls) linter' args kwargs = Dropped
  \/ exists pattern rules_str F R defs rule rule_defs msg,
      (pattern, rules_str) ∈ items
      /\ current_file linter' = Some F
      /\ absolute F ∈ map absolute (glob (without_line_break pattern))
      /\ args !! 1 = Some (VStr R) /\ msgs_store linter' R = Some defs
      /\ rule ∈ parse_rules rules_str
      /\ msgs_store linter rule = Some rule_defs
      /\ msg ∈ defs /\ msg ∈ rule_defs.
Proof.
  intros Hload (files & messages & Hin & Hret)%call_dropped_layer.
  destruct (_add_message_return _ _ _ _ _ Hret)
    as (F & R & defs & Hcf & HF & Harg & Hstore & Hfile & msg & Hdef & Hmsg).
  rewrite (load_items_layers _ _ _ _ _ Hload) in Hin.
  apply elem_of_app in Hin as [Hnew|Hold].
  - right. apply elem_of_rev_concat_map in Hnew as ([p rs] & Hitem & Hlayer).
    destruct (item_layers_justified _ _ _ _ _ _ _ Hlayer Hmsg)
      as (-> & rule & rule_defs & Hrule & Hrstore & Hrdef).
    by exists p, rs, F, R, defs, rule, rule_defs, msg.
  - left. apply (call_dropped_iff _ _ _ _ F R defs); try done.
    exists files, messages. split; [done|]. split; [done|]. by exists msg.
Qed.

(** C2, as the code has it: every run of [_augment_add_message] wraps
    the current [add_message] of each owner's class in a new closure
    with its own files and messages, whatever is installed already
    staying underneath; so after a load a class carries one closure
    for each item of the mapping that names one of its rules, and an
    emission is dropped exactly when a single closure lists both its
    file and a definition of its rule. *)
Theorem C2_each_entry_wraps_again (linter : PyLinter)
    (classes : gmap nat method) (cls : nat) :
  (forall rules files checkers,
      resolve_rules linter rules [] = Ok checkers ->
      layers (class_getattr
                (_augment_add_message linter rules files classes).2 cls)
      = rev (new_layers files checkers cls)
        ++ layers (class_getattr classes cls))
  /\ (forall config classes',
        parse_config (per_file_ignores linter) = Ok config ->
        load_configuration absolute glob linter classes = (Ok tt, classes') ->
        layers (class_getattr classes' cls)
        = rev (concat (map (item_layers absolute glob linter cls)
                           (dict_items config)))
          ++ layers (class_getattr classes cls))
  /\ (forall m linter' args kwargs F R defs,
        current_file linter' = Some F -> Str.truthy F = true ->
        args !! 1 = Some (VStr R) -> msgs_store linter' R = Some defs ->
        (call absolute m linter' args kwargs = Dropped <->
         exists files ppfi_messages,
           (files, ppfi_messages) ∈ layers m
           /\ listed absolute files ppfi_messages F defs)).
Proof.
  split; [|split].
  - intros rules files checkers Hres.
    rewrite _augment_add_message_run, Hres. simpl.
    by rewrite install_getattr, layers_fold_left.
  - intros config classes' Hcfg.
    rewrite (load_configuration_parsed _ _ _ Hcfg).
    apply load_items_layers.
  - intros m linter' args kwargs F R defs. apply call_dropped_iff.
Qed.

(** C3, as the code has it: when an item of the mapping holds a rule
    token without a definition or without a checker, the load fails
    with UnknownMessageError (the UnknownRuleError of the
    specification); that item and the items after it install nothing,
    and the class attributes are left as the items before it made
    them. *)
Theorem C3_unknown_rule_stops_the_load (linter : PyLinter)
    (config items1 items2 : list (string * string))
    (pattern rules_str rule : string) (classes : gmap nat method) :
  parse_config (per_file_ignores linter) = Ok config ->
  dict_items config = items1 ++ (pattern, rules_str) :: items2 ->
  rule ∈ parse_rules rules_str ->
  unresolved linter rule ->
  (exists classes',
      load_configuration absolute glob linter classes =
      (Err UnknownMessageError, classes'))
  /\ (forall classes1,
        load_items absolute glob linter items1 classes = (Ok tt, classes1) ->
        load_configuration absolute glob linter classes =
        (Err UnknownMessageError, classes1)).
Proof.
  intros Hcfg Hitems Hrule Hbad.
  rewrite (load_configuration_parsed _ _ _ Hcfg), Hitems, load_items_app.
  assert (forall classes1,
      load_items absolute glob linter ((pattern, rules_str) :: items2) classes1
      = (Err UnknownMessageError, classes1)) as Hstop.
  { intros classes1. cbn [load_items]. unfold bind.
    by rewrite load_item_run, (resolve_rules_unresolved _ _ _ Hrule Hbad). }
  split.
  - destruct (load_items absolute glob linter items1 classes)
      as [[[]|e] classes1] eqn:Hload.
    + exists classes1. apply Hstop.
    + exists classes1. by apply load_items_err in Hload as ->.
  - intros classes1 ->. apply Hstop.
Qed.

(** C9: an item whose pattern matches no file loads without error
    when its rule tokens resolve; the closures it installs hold no
    file, so what they drop was dropped before, and with a current
    file set every emission goes through them unchanged; a
    configuration made of that item alone loads without error. *)
Theorem C9_no_match_no_suppression (linter : PyLinter)
    (pattern rules_str : string)
    (checkers : list (BaseChecker * list MessageDefinition))
    (classes : gmap nat method) :
  glob (without_line_break pattern) = [] ->
  resolve_rules linter (parse_rules rules_str) [] = Ok checkers ->
  exists classes',
    load_item absolute glob linter (pattern, rules_str) classes = (Ok tt, classes')
    /\ (forall cls files messages,
          (files, messages)
            ∈ item_layers absolute glob linter cls (pattern, rules_str) ->
          files = [])
    /\ (forall cls linter' args kwargs,
          call absolute (class_getattr classes' cls) linter' args kwargs = Dropped ->
          call absolute (class_getattr classes cls) linter' args kwargs = Dropped)
    /\ (forall cls linter' args kwargs F,
          current_file linter' = Some F -> Str.truthy F = true ->
          call absolute (class_getattr classes' cls) linter' args kwargs =
          call absolute (class_getattr classes cls) linter' args kwargs)
    /\ (parse_config (per_file_ignores linter) = Ok [(pattern, rules_str)] ->
        load_configuration absolute glob linter classes = (Ok tt, classes')).
Proof.
  intros Hglob Hres. rewrite load_item_run, Hres, Hglob. simpl.
  exists (install [] checkers classes). split; [done|].
  assert (forall cls, Forall (fun layer => layer.1 = [])
                             (new_layers [] checkers cls)) as Hnone.
  { intros cls. unfold new_layers. apply Forall_fmap. by apply Forall_true. }
  split; [|split; [|split]]; cycle 3.
  { intros Hcfg. rewrite (load_configuration_parsed _ _ _ Hcfg).
    cbn [load_items dict_items]. unfold bind.
    by rewrite load_item_run, Hres, Hglob. }
  - intros cls files messages. unfold item_layers. simpl.
    rewrite Hres, Hglob. simpl.
    intros Hin. by apply (proj1 (Forall_forall _ _) (Hnone cls) _ Hin).
  - intros cls linter' args kwargs. rewrite install_getattr.
    apply call_no_files, Hnone.
  - intros cls linter' args kwargs F. rewrite install_getattr.
    apply call_no_files, Hnone.
Qed.

End Loader.

(** * The demo project *)

Section DemoRuns.

Import Demo.


Example end_to_end :
  let classes :=
    (load_configuration absolute glob
       (linter "tests/*:unused-import,line-too-long" None) ∅).2 in
  emit classes imports (Some "tests/a.py") "unused-import" = Dropped
  /\ emit classes imports (Some "other/c.py") "unused-import"
     = Emitted [VObj 1; VStr "unused-import"] kw
  /\ emit classes imports (Some "tests/a.py") "C0415"
     = Emitted [VObj 1; VStr "C0415"] kw
  /\ emit classes format (Some "tests/b.py") "C0301" = Dropped.
Proof. vm_compute. done. Qed.

Example repeated_pattern :
  let classes :=
    (load_configuration absolute glob
       (linter (lines "tests/*:unused-import" "tests/*:line-too-long") None)
       ∅).2 in
  emit classes imports (Some "tests/a.py") "unused-import"
  = Emitted [VObj 1; VStr "unused-import"] kw
  /\ emit classes format (Some "tests/a.py") "line-too-long" = Dropped.
Proof. vm_compute. done. Qed.

End DemoRuns.

Ltac by_compute := apply (bool_decide_unpack _); vm_compute; exact I.

(** Two items for one owner leave two closures on its class, and an
    emission that only their union would list goes through. *)
Lemma C2_two_entries_two_closures :
  Demo.two_entries_one_owner.1 = Ok tt
  /\ layers (class_getattr Demo.two_entries_one_owner.2 1) =
     [(["/w/src/m.py"], [Demo.import_outside]);
      (["/w/tests/a.py"; "/w/tests/b.py"], [Demo.unused_import])]
  /\ Demo.emit Demo.two_entries_one_owner.2 Demo.imports
       (Some "tests/a.py") "C0415"
     = Emitted [VObj 1; VStr "C0415"] Demo.kw
  /\ call Demo.absolute
       (ppfi_add_message ["/w/tests/a.py"; "/w/tests/b.py"; "/w/src/m.py"]
          [Demo.unused_import; Demo.import_outside] original_add_message)
       (Demo.linter "" (Some "tests/a.py")) [VObj 1; VStr "C0415"] Demo.kw
     = Dropped.
Proof. vm_compute. done. Qed.

(** The load fails at the second item and the closure of the first
    stays on the class and goes on dropping; a token that nothing
    resolves, on a line whose pattern comes again later, does not fail
    the load. *)
Lemma C3_earlier_closure_remains :
  Demo.unknown_rule_second.1 = Err UnknownMessageError
  /\ class_getattr Demo.unknown_rule_second.2 1 =
     ppfi_add_message ["/w/tests/a.py"; "/w/tests/b.py"] [Demo.unused_import]
       original_add_message
  /\ Demo.emit Demo.unknown_rule_second.2 Demo.imports
       (Some "tests/a.py") "W0611" = Dropped
  /\ Demo.unknown_rule_overwritten.1 = Ok tt.
Proof. vm_compute. done. Qed.

(** A line with two colons splits in three and the load fails. *)
Lemma C5_second_colon_rejected :
  Str.count ":" "a.py:W0611:C0114" = 2
  /\ _parse_string "a.py:W0611:C0114" = ["a.py:W0611:C0114"]
  /\ Str.split ":" "a.py:W0611:C0114" = ["a.py"; "W0611"; "C0114"]
  /\ parse_config "a.py:W0611:C0114" = Err ValueError
  /\ load_configuration Demo.absolute Demo.glob
       (Demo.linter "a.py:W0611:C0114" None) ∅ = (Err ValueError, ∅).
Proof. vm_compute. done. Qed.


(** ** The theorems at work on the demo project *)

Lemma C5_witness :
  (exists pattern rules_str,
      Str.split ":" "tests/*:W0611,C0301" = [pattern; rules_str]
      /\ "tests/*:W0611,C0301" = pattern +:+ String ":" rules_str
      /\ forall d, dict_update d [Str.split ":" "tests/*:W0611,C0301"] =
                   Ok (dict_set pattern rules_str d))
  /\ load_configuration Demo.absolute Demo.glob
       (Demo.linter "a.py:W0611:C0114" None) ∅ = (Err ValueError, ∅).
Proof.
  split.
  - apply (proj1 (C5_one_colon_splits_in_two Demo.absolute Demo.glob
                    "tests/*:W0611,C0301")).
    reflexivity.
  - apply (proj1 (proj2 (C5_one_colon_splits_in_two Demo.absolute Demo.glob
                           "a.py:W0611:C0114"))).
    + vm_compute. lia.
    + by_compute.
Defined.

Lemma C6_witness :
  load_configuration Demo.absolute Demo.glob
    (Demo.linter (Demo.lines "tests/*:W0611" "oops") None) ∅
  = (Err ValueError, ∅).
Proof.
  apply (C6_line_without_colon Demo.absolute Demo.glob
           (Demo.linter (Demo.lines "tests/*:W0611" "oops") None) "oops" ∅).
  - by_compute.
  - reflexivity.
Defined.


Lemma C2_witness :
  layers (class_getattr
            (_augment_add_message (Demo.linter "" None) ["C0415"]
               ["/w/src/m.py"]
               {[ 1 := ppfi_add_message ["/w/tests/a.py"] [Demo.unused_import]
                         original_add_message ]}).2 1)
  = rev (new_layers ["/w/src/m.py"] [(Demo.imports, [Demo.import_outside])] 1)
    ++ layers (class_getattr
                 {[ 1 := ppfi_add_message ["/w/tests/a.py"]
                           [Demo.unused_import] original_add_message ]} 1)
  /\ (call Demo.absolute (class_getattr Demo.two_entries_one_owner.2 1)
        (Demo.linter "" (Some "tests/a.py")) [VObj 1; VStr "W0611"] [] = Dropped
      <-> exists files ppfi_messages,
          (files, ppfi_messages)
            ∈ layers (class_getattr Demo.two_entries_one_owner.2 1)
          /\ listed Demo.absolute files ppfi_messages "tests/a.py"
               [Demo.unused_import]).
Proof.
  split.
  - apply (proj1 (C2_each_entry_wraps_again Demo.absolute Demo.glob
                    (Demo.linter "" None)
                    {[ 1 := ppfi_add_message ["/w/tests/a.py"]
                              [Demo.unused_import] original_add_message ]} 1)).
    reflexivity.
  - apply (proj2 (proj2 (C2_each_entry_wraps_again Demo.absolute Demo.glob
                           (Demo.linter "" None) ∅ 1))
             (class_getattr Demo.two_entries_one_owner.2 1)
             (Demo.linter "" (Some "tests/a.py")) [VObj 1; VStr "W0611"] []
             "tests/a.py" "W0611" [Demo.unused_import]); reflexivity.
Defined.

Lemma C3_witness :
  load_configuration Demo.absolute Demo.glob
    (Demo.linter (Demo.lines "tests/*:unused-import" "src/*.py:bogus") None) ∅
  = (Err UnknownMessageError,
     (load_items Demo.absolute Demo.glob (Demo.linter "" None)
        [("tests/*", "unused-import")] ∅).2).
Proof.
  apply (proj2 (C3_unknown_rule_stops_the_load Demo.absolute Demo.glob
                  (Demo.linter
                     (Demo.lines "tests/*:unused-import" "src/*.py:bogus") None)
                  [("tests/*", "unused-import"); ("src/*.py", "bogus")]
                  [("tests/*", "unused-import")] []
                  "src/*.py" "bogus" "bogus" ∅
                  eq_refl eq_refl ltac:(by_compute) (or_introl eq_refl))).
  reflexivity.
Defined.

Lemma C9_witness :
  exists classes',
    load_item Demo.absolute Demo.glob (Demo.linter "" None)
      ("docs/*", "unused-import") ∅ = (Ok tt, classes')
    /\ forall cls linter' args kwargs,
        call Demo.absolute (class_getattr classes' cls) linter' args kwargs
        = Dropped ->
        call Demo.absolute (class_getattr ∅ cls) linter' args kwargs = Dropped.
Proof.
  destruct (C9_no_match_no_suppression Demo.absolute Demo.glob
              (Demo.linter "" None) "docs/*" "unused-import"
              [(Demo.imports, [Demo.unused_import])] ∅ eq_refl eq_refl)
    as (classes' & Hload & _ & Hdrop & _ & _).
  exists classes'. split; assumption.
Defined.


(** * Further properties *)

(** ** White space and fields *)

Lemma app_cons (x : ascii) (s t : string) :
  String x s +:+ t = String x (s +:+ t).
Proof. reflexivity. Qed.

Lemma app_assoc_str (s t u : string) : (s +:+ t) +:+ u = s +:+ (t +:+ u).
Proof.
  induction s as [|x s IH]; [done|]. rewrite !app_cons. by rewrite IH.
Qed.

Lemma app_empty_r (s : string) : s +:+ EmptyString = s.
Proof. induction s as [|x s IH]; [done|]. rewrite app_cons. by rewrite IH. Qed.

Lemma contains_app (c : ascii) (s t : string) :
  Str.contains c (s +:+ t) = Str.contains c s || Str.contains c t.
Proof.
  induction s as [|x s IH]; [done|]. rewrite app_cons. simpl.
  rewrite IH. by destruct (Ascii.eqb x c).
Qed.

Lemma contains_cons (c x : ascii) (s : string) :
  Str.contains c (String x s) = Ascii.eqb x c || Str.contains c s.
Proof. reflexivity. Qed.

Lemma lstrip_head (s : string) (x : ascii) (t : string) :
  Str.lstrip s = String x t -> Str.isspace x = false.
Proof.
  induction s as [|y s IH]; simpl; [done|].
  destruct (Str.isspace y) eqn:Hy; [done|]. by intros [= <- _].
Qed.

Lemma rstrip_head (x : ascii) (s : string) :
  Str.isspace x = false -> exists t, Str.rstrip (String x s) = String x t.
Proof.
  intros Hx. simpl. destruct (Str.rstrip s) as [|y r]; [|by eexists].
  rewrite Hx. by eexists.
Qed.

Lemma rstrip_idem (s : string) : Str.rstrip (Str.rstrip s) = Str.rstrip s.
Proof.
  induction s as [|x s IH]; simpl; [done|].
  destruct (Str.rstrip s) as [|y r] eqn:Hr.
  - destruct (Str.isspace x) eqn:Hx; simpl; [done|]. by rewrite Hx.
  - change (Str.rstrip (String x (String y r)))
      with (match Str.rstrip (String y r) with
            | EmptyString =>
                if Str.isspace x then EmptyString else String x EmptyString
            | r' => String x r'
            end).
    by rewrite IH.
Qed.

(** What [strip] returns is empty or begins with a character that is
    not white space. *)
Lemma strip_head (s : string) (x : ascii) (t : string) :
  Str.strip s = String x t -> Str.isspace x = false.
Proof.
  unfold Str.strip. destruct (Str.lstrip s) as [|y u] eqn:Hl; [done|].
  pose proof (lstrip_head _ _ _ Hl) as Hy.
  destruct (rstrip_head y u Hy) as [t' ->]. by intros [= <- _].
Qed.

Lemma strip_idem (s : string) : Str.strip (Str.strip s) = Str.strip s.
Proof.
  destruct (Str.strip s) as [|x t] eqn:Hs; [done|].
  pose proof (strip_head _ _ _ Hs) as Hx.
  unfold Str.strip in *. simpl Str.lstrip. rewrite Hx.
  rewrite <- Hs. apply rstrip_idem.
Qed.

Lemma lstrip_contains (c : ascii) (s : string) :
  Str.contains c s = false -> Str.contains c (Str.lstrip s) = false.
Proof.
  induction s as [|x s IH]; simpl; [done|].
  intros [Hx Hs]%orb_false_elim.
  destruct (Str.isspace x); [by apply IH|]. simpl. by rewrite Hx, Hs.
Qed.

Lemma rstrip_contains (c : ascii) (s : string) :
  Str.contains c s = false -> Str.contains c (Str.rstrip s) = false.
Proof.
  induction s as [|x s IH]; simpl; [done|].
  intros [Hx Hs]%orb_false_elim. specialize (IH Hs).
  destruct (Str.rstrip s) as [|y r].
  - destruct (Str.isspace x); simpl; [done|]. by rewrite Hx.
  - simpl in *. by rewrite Hx, IH.
Qed.

Lemma strip_contains (c : ascii) (s : string) :
  Str.contains c s = false -> Str.contains c (Str.strip s) = false.
Proof. intros Hs. by apply rstrip_contains, lstrip_contains. Qed.

(** No field of a split holds the separator. *)
Lemma split_fields (sep : ascii) (s : string) :
  Forall (fun w => Str.contains sep w = false) (Str.split sep s).
Proof.
  induction s as [|x s IH]; simpl; [by repeat constructor|].
  destruct (Ascii.eqb x sep) eqn:Hx; [by constructor|].
  destruct (Str.split sep s) as [|w ws]; [repeat constructor; simpl; by rewrite Hx|].
  apply Forall_cons in IH as [Hw Hws]. constructor; [|done].
  simpl. by rewrite Hx, Hw.
Qed.

(** Splitting what [join] wrote gives the fields back. *)
Lemma split_join (sep : ascii) (fields : list string) :
  fields <> [] ->
  Forall (fun w => Str.contains sep w = false) fields ->
  Str.split sep (join sep fields) = fields.
Proof.
  induction fields as [|w [|w' ws] IH]; [done| |].
  - intros _ [Hw _]%Forall_cons. simpl. by apply split_none.
  - intros _ [Hw Hws]%Forall_cons.
    change (join sep (w :: w' :: ws))
      with (w +:+ String sep (join sep (w' :: ws))).
    rewrite (split_first _ _ _ Hw). f_equal. by apply IH.
Qed.

(** ** The substitution of [_parse_string] *)

Lemma span_run_no_colon (s : string) :
  Str.contains ":" s = false ->
  exists run rest, span_run s = (run, rest)
                   /\ (rest = EmptyString \/ exists v, rest = String "," v).
Proof.
  induction s as [|x s IH]; simpl; [by eauto|].
  intros [Hx Hs]%orb_false_elim. unfold is_comma_or_colon. rewrite Hx.
  destruct (Ascii.eqb x ",") eqn:Hc; simpl.
  - apply Ascii.eqb_eq in Hc as ->. eauto 6.
  - destruct (IH Hs) as (run & rest & -> & Hrest). eauto.
Qed.

Lemma match_group_no_colon (s : string) :
  Str.contains ":" s = false -> match_group s = None.
Proof.
  intros (run & rest & Hspan & Hrest)%span_run_no_colon.
  unfold match_group. rewrite Hspan.
  destruct Hrest as [->|[v ->]]; by destruct run.
Qed.

Lemma span_run_before_comma (t v : string) :
  Str.contains ":" t = false ->
  exists run rest, span_run (t +:+ String "," v) = (run, String "," rest).
Proof.
  induction t as [|x t IH]; [by eexists _, _|].
  rewrite app_cons. simpl. intros [Hx Ht]%orb_false_elim.
  unfold is_comma_or_colon. rewrite Hx.
  destruct (Ascii.eqb x ",") eqn:Hc; simpl.
  - apply Ascii.eqb_eq in Hc as ->. by eexists _, _.
  - destruct (IH Ht) as (run & rest & ->). by eexists _, _.
Qed.

Lemma match_group_before_comma (t v : string) :
  Str.contains ":" t = false -> match_group (t +:+ String "," v) = None.
Proof.
  intros Ht. destruct (span_run_before_comma t v Ht) as (run & rest & Hspan).
  unfold match_group. rewrite Hspan. by destruct run.
Qed.

Lemma span_run_pattern (p w : string) :
  Str.contains "," p = false -> Str.contains ":" p = false ->
  span_run (p +:+ String ":" w) = (p, String ":" w).
Proof.
  induction p as [|x p IH]; [done|].
  rewrite app_cons. simpl. intros [Hc Hp]%orb_false_elim [Hx Hp']%orb_false_elim.
  unfold is_comma_or_colon. rewrite Hc, Hx. simpl. by rewrite (IH Hp Hp').
Qed.

Lemma match_group_pattern (p w : string) :
  p <> EmptyString ->
  Str.contains "," p = false -> Str.contains ":" p = false ->
  match_group (p +:+ String ":" w) = Some (p +:+ ":").
Proof.
  intros Hne Hc Hx. unfold match_group.
  rewrite (span_run_pattern _ _ Hc Hx). by destruct p.
Qed.

(** Without a colon there is nothing to substitute. *)
Lemma re_sub_from_no_colon (s : string) :
  Str.contains ":" s = false -> forall skip, re_sub_from skip s = s.
Proof.
  induction s as [|x s IH]; [done|]. simpl.
  intros [Hx Hs]%orb_false_elim [|k]; [|by rewrite IH].
  rewrite (match_group_no_colon _ Hs), (IH Hs).
  by destruct (Ascii.eqb x ",").
Qed.

Lemma re_sub_from_skip (t u : string) :
  re_sub_from (String.length t) (t +:+ u) = t +:+ re_sub_from 0 u.
Proof.
  induction t as [|x t IH]; [done|]. rewrite !app_cons. simpl. by rewrite IH.
Qed.

Lemma re_sub_from_copy (t u : string) :
  Str.contains "," t = false ->
  re_sub_from 0 (t +:+ u) = t +:+ re_sub_from 0 u.
Proof.
  induction t as [|x t IH]; [done|]. rewrite !app_cons. simpl.
  intros [Hx Ht]%orb_false_elim. by rewrite Hx, (IH Ht).
Qed.

(** The commas of a rule list stay. *)
Lemma re_sub_from_rules (r v : string) :
  Str.contains ":" r = false ->
  re_sub_from 0 (r +:+ String "," v) = r +:+ re_sub_from 0 (String "," v).
Proof.
  induction r as [|x r IH]; [done|]. rewrite !app_cons.
  intros [Hx Hr]%orb_false_elim.
  change (re_sub_from 0 (String x (r +:+ String "," v)))
    with (if Ascii.eqb x ","
          then match match_group (r +:+ String "," v) with
               | Some g => String Str.LF
                             (re_sub_from (String.length g) (r +:+ String "," v))
               | None => String x (re_sub_from 0 (r +:+ String "," v))
               end
          else String x (re_sub_from 0 (r +:+ String "," v))).
  rewrite (match_group_before_comma _ _ Hr), (IH Hr).
  by destruct (Ascii.eqb x ",").
Qed.

(** The comma before a pattern becomes a line break. *)
Lemma re_sub_from_entry (p w : string) :
  p <> EmptyString ->
  Str.contains "," p = false -> Str.contains ":" p = false ->
  re_sub_from 0 (String "," (p +:+ String ":" w)) =
  String Str.LF (p +:+ String ":" (re_sub_from 0 w)).
Proof.
  intros Hne Hc Hx.
  change (re_sub_from 0 (String "," (p +:+ String ":" w)))
    with (match match_group (p +:+ String ":" w) with
          | Some g => String Str.LF
                        (re_sub_from (String.length g) (p +:+ String ":" w))
          | None => String "," (re_sub_from 0 (p +:+ String ":" w))
          end).
  rewrite (match_group_pattern _ _ Hne Hc Hx).
  change (p +:+ String ":" w) with (p +:+ (":" +:+ w)).
  rewrite <- app_assoc_str, re_sub_from_skip. by rewrite app_assoc_str.
Qed.

Lemma join_tail (sep : ascii) (entries : list (string * string)) :
  forall entry,
    join sep (map entry_line (entry :: entries)) =
    entry_line entry +:+ tail_encoding sep entries.
Proof.
  induction entries as [|e es IH]; intros entry.
  - simpl. by rewrite app_empty_r.
  - change (join sep (map entry_line (entry :: e :: es)))
      with (entry_line entry +:+ String sep (join sep (map entry_line (e :: es)))).
    by rewrite IH.
Qed.

Lemma re_sub_from_tail (entries : list (string * string)) :
  Forall plain_entry entries ->
  forall r, Str.contains ":" r = false ->
            re_sub_from 0 (r +:+ tail_encoding "," entries) =
            r +:+ tail_encoding Str.LF entries.
Proof.
  induction 1 as [|[p r'] es (Hne & Hc & Hx & _ & Hr' & _) _ IH]; intros r Hr.
  - simpl. rewrite app_empty_r. by apply re_sub_from_no_colon.
  - simpl in *. unfold entry_line. simpl.
    rewrite (re_sub_from_rules _ _ Hr), !app_assoc_str, !app_cons.
    rewrite (re_sub_from_entry _ _ Hne Hc Hx), (IH _ Hr'). done.
Qed.

(** The substitution turns the flat string into the lines. *)
Lemma re_sub_flattened_encoding (entries : list (string * string)) :
  Forall plain_entry entries ->
  re_sub (flattened_encoding entries) = multi_line_encoding entries.
Proof.
  unfold flattened_encoding, multi_line_encoding, re_sub.
  destruct entries as [|[p r] es]; [done|].
  intros [(Hne & Hc & Hx & _ & Hr & _) Hes]%Forall_cons. cbn [fst snd] in *.
  rewrite !join_tail. unfold entry_line. cbn [fst snd].
  rewrite !app_assoc_str, (re_sub_from_copy _ _ Hc).
  rewrite !app_cons.
  change (re_sub_from 0 (String ":" (r +:+ tail_encoding "," es)))
    with (String ":" (re_sub_from 0 (r +:+ tail_encoding "," es))).
  by rewrite (re_sub_from_tail _ Hes _ Hr).
Qed.

(** ** Lines, entries and tokens *)

Lemma truthy_nonempty (s : string) : Str.truthy s = true <-> s <> EmptyString.
Proof. by destruct s. Qed.

Lemma _splitstrip_items (s : string) (sep : ascii) (item : string) :
  item ∈ _splitstrip s sep ->
  item <> EmptyString /\ Str.strip item = item /\ Str.contains sep item = false.
Proof.
  unfold _splitstrip.
  intros (word & Hin & Hword)%list_elem_of_omap.
  destruct (Str.truthy (Str.strip word)) eqn:Ht; [|done].
  injection Hword as <-. split; [by apply truthy_nonempty|].
  split; [apply strip_idem|]. apply strip_contains.
  by apply (proj1 (Forall_forall _ _) (split_fields sep s)).
Qed.

Lemma _parse_string_line_head (input_string item : string) :
  item ∈ _parse_string input_string ->
  Str.contains Str.LF item = false
  /\ exists x t, item = String x t /\ Str.isspace x = false.
Proof.
  unfold _parse_string. intros Hin.
  apply _splitstrip_items in Hin as (Hne & Hstrip & Hlf).
  split; [done|]. destruct item as [|x t]; [done|].
  exists x, t. split; [done|]. by apply (strip_head _ _ _ Hstrip).
Qed.

(** X1: every line that [_parse_string] returns is non-empty, has no
    white space at either end, holds no line break and begins with a
    character that is not white space. *)
Theorem X1_parse_string_lines (input_string item : string) :
  item ∈ _parse_string input_string ->
  item <> EmptyString
  /\ Str.strip item = item
  /\ Str.contains Str.LF item = false
  /\ exists x t, item = String x t /\ Str.isspace x = false.
Proof.
  unfold _parse_string. intros Hin.
  apply _splitstrip_items in Hin as (Hne & Hstrip & Hlf).
  do 3 (split; [done|]). destruct item as [|x t]; [done|].
  exists x, t. split; [done|]. by apply (strip_head _ _ _ Hstrip).
Qed.

Lemma omap_strip_stripped (lines : list string) :
  Forall (fun line => line <> EmptyString /\ Str.strip line = line) lines ->
  omap (fun word => if Str.truthy (Str.strip word)
                    then Some (Str.strip word) else None) lines = lines.
Proof.
  induction 1 as [|line rest [Hne Hstrip] _ IH]; [done|].
  simpl. rewrite Hstrip. apply truthy_nonempty in Hne. rewrite Hne.
  f_equal. exact IH.
Qed.

Lemma _splitstrip_join (sep : ascii) (lines : list string) :
  Forall (fun line => line <> EmptyString /\ Str.strip line = line
                      /\ Str.contains sep line = false) lines ->
  _splitstrip (join sep lines) sep = lines.
Proof.
  intros Hlines. unfold _splitstrip. destruct lines as [|l ls]; [done|].
  rewrite split_join; [|done|].
  - apply omap_strip_stripped. eapply Forall_impl; [exact Hlines|].
    by intros ? (? & ? & _).
  - eapply Forall_impl; [exact Hlines|]. by intros ? (_ & _ & ?).
Qed.

Lemma entry_line_contains (c : ascii) (p r : string) :
  Str.contains c (entry_line (p, r)) =
  Str.contains c p || Ascii.eqb ":" c || Str.contains c r.
Proof.
  unfold entry_line. simpl. rewrite contains_app. simpl.
  by rewrite orb_assoc.
Qed.

Lemma tail_encoding_no_line_break (entries : list (string * string)) :
  Forall plain_entry entries ->
  Str.contains Str.LF (tail_encoding "," entries) = false.
Proof.
  induction 1 as [|[p r] es (_ & _ & _ & Hp & _ & Hr) _ IH]; [done|].
  simpl in *. rewrite contains_app, entry_line_contains, Hp, Hr, IH. done.
Qed.

Lemma flattened_encoding_no_line_break (entries : list (string * string)) :
  Forall plain_entry entries ->
  Str.contains Str.LF (flattened_encoding entries) = false.
Proof.
  unfold flattened_encoding. destruct entries as [|[p r] es]; [done|].
  intros [(_ & _ & _ & Hp & _ & Hr) Hes]%Forall_cons. simpl in Hp, Hr.
  rewrite join_tail, contains_app, entry_line_contains, Hp, Hr.
  by rewrite (tail_encoding_no_line_break _ Hes).
Qed.

Lemma _parse_string_flattened (entries : list (string * string)) :
  Forall plain_entry entries ->
  _parse_string (flattened_encoding entries) =
  _splitstrip (multi_line_encoding entries) Str.LF.
Proof.
  intros Hes. unfold _parse_string.
  by rewrite (flattened_encoding_no_line_break _ Hes),
    (re_sub_flattened_encoding _ Hes).
Qed.

Lemma _parse_string_multi_line (entries : list (string * string)) :
  Forall plain_entry entries ->
  _parse_string (multi_line_encoding entries) =
  _splitstrip (multi_line_encoding entries) Str.LF.
Proof.
  intros Hes. destruct entries as [|e [|e' es]].
  - done.
  - rewrite <- (_parse_string_flattened [e] Hes). done.
  - unfold _parse_string, multi_line_encoding.
    rewrite join_tail. simpl tail_encoding.
    rewrite contains_app. simpl Str.contains at 2.
    by rewrite orb_true_r.
Qed.

(** X2: for entries whose patterns are non-empty and free of comma,
    colon and line break and whose rule lists are free of colon and
    line break, the flat string and the line-by-line string parse to
    the same lines and the same mapping. *)
Theorem X2_flat_and_lines_agree (entries : list (string * string)) :
  Forall plain_entry entries ->
  re_sub (flattened_encoding entries) = multi_line_encoding entries
  /\ _parse_string (flattened_encoding entries) =
     _parse_string (multi_line_encoding entries)
  /\ parse_config (flattened_encoding entries) =
     parse_config (multi_line_encoding entries).
Proof.
  intros Hes. split; [by apply re_sub_flattened_encoding|].
  assert (_parse_string (flattened_encoding entries) =
          _parse_string (multi_line_encoding entries)) as Heq.
  { by rewrite _parse_string_flattened, _parse_string_multi_line. }
  split; [done|]. unfold parse_config. by rewrite Heq.
Qed.

Lemma dict_set_fresh (k v : string) (d : list (string * string)) :
  k ∉ d.*1 -> dict_set k v d = d ++ [(k, v)].
Proof.
  induction d as [|[k0 v0] d IH]; simpl; [done|].
  rewrite not_elem_of_cons. intros [Hne Hd].
  destruct (decide (k = k0)); [done|]. by rewrite (IH Hd).
Qed.

Lemma dict_update_fresh (entries : list (string * string)) :
  forall d,
    NoDup (d ++ entries).*1 ->
    dict_update d (map (fun entry => [entry.1; entry.2]) entries)
    = Ok (d ++ entries).
Proof.
  induction entries as [|[k v] es IH]; intros d Hnd; simpl.
  - by rewrite app_nil_r.
  - rewrite dict_set_fresh.
    + rewrite (IH (d ++ [(k, v)])); rewrite <- app_assoc; done.
    + rewrite fmap_app in Hnd. apply NoDup_app in Hnd as (_ & Hd & _).
      intros Hin. apply (Hd _ Hin). simpl. apply elem_of_cons. by left.
Qed.

Lemma split_entry_line (p r : string) :
  Str.contains ":" p = false -> Str.contains ":" r = false ->
  Str.split ":" (entry_line (p, r)) = [p; r].
Proof.
  intros Hp Hr. unfold entry_line. simpl.
  by rewrite (split_first _ _ _ Hp), (split_none _ _ Hr).
Qed.

(** X3: entries that the flat string can carry, with distinct patterns
    and lines without white space at either end, come back from either
    encoding as the mapping, in their order. *)
Theorem X3_encode_then_parse (entries : list (string * string)) :
  Forall plain_entry entries ->
  Forall (fun entry => Str.strip (entry_line entry) = entry_line entry) entries ->
  NoDup entries.*1 ->
  parse_config (multi_line_encoding entries) = Ok entries
  /\ parse_config (flattened_encoding entries) = Ok entries.
Proof.
  intros Hplain Hstrip Hnd.
  assert (parse_config (multi_line_encoding entries) = Ok entries) as Hmulti.
  { unfold parse_config.
    rewrite (_parse_string_multi_line _ Hplain).
    unfold multi_line_encoding. rewrite _splitstrip_join.
    - rewrite map_map.
      rewrite (map_ext_Forall _ (fun entry => [entry.1; entry.2])).
      + by apply (dict_update_fresh entries []).
      + eapply Forall_impl; [exact Hplain|].
        intros [p r] (_ & _ & Hp & _ & Hr & _). by apply split_entry_line.
    - apply Forall_fmap, Forall_forall. intros [p r] Hin.
      pose proof (proj1 (Forall_forall _ _) Hplain _ Hin)
        as (Hne & _ & _ & Hp & _ & Hr).
      pose proof (proj1 (Forall_forall _ _) Hstrip _ Hin) as Hs.
      simpl in *. split; [|split; [done|]].
      + unfold entry_line. simpl. by destruct p.
      + by rewrite entry_line_contains, Hp, Hr. }
  split; [done|]. unfold parse_config in *.
  by rewrite _parse_string_flattened, <- _parse_string_multi_line.
Qed.

(** ** Blank configurations *)

Lemma blank_lstrip (s : string) : blank s = true -> Str.lstrip s = EmptyString.
Proof.
  induction s as [|x s IH]; simpl; [done|].
  intros [Hx Hs]%andb_prop. by rewrite Hx, (IH Hs).
Qed.

Lemma blank_contains (c : ascii) (s : string) :
  Str.isspace c = false -> blank s = true -> Str.contains c s = false.
Proof.
  intros Hc. induction s as [|x s IH]; simpl; [done|].
  intros [Hx Hs]%andb_prop. rewrite (IH Hs).
  destruct (Ascii.eqb x c) eqn:Heq; [|done].
  apply Ascii.eqb_eq in Heq as ->. congruence.
Qed.

Lemma blank_split (sep : ascii) (s : string) :
  blank s = true -> Forall (fun w => blank w = true) (Str.split sep s).
Proof.
  induction s as [|x s IH]; simpl; [by repeat constructor|].
  intros [Hx Hs]%andb_prop. specialize (IH Hs).
  destruct (Ascii.eqb x sep); [by constructor|].
  destruct (Str.split sep s) as [|w ws]; [repeat constructor; simpl; by rewrite Hx|].
  apply Forall_cons in IH as [Hw Hws]. constructor; [|done].
  simpl. by rewrite Hx, Hw.
Qed.

Lemma blank_parse_string (s : string) : blank s = true -> _parse_string s = [].
Proof.
  intros Hs. unfold _parse_string, re_sub.
  rewrite (re_sub_from_no_colon s) by (by apply blank_contains).
  assert (forall t, blank t = true -> _splitstrip t Str.LF = []) as Hsplit.
  { intros t Ht. unfold _splitstrip.
    pose proof (blank_split Str.LF t Ht) as Hall.
    induction Hall as [|w ws Hw _ IH]; [done|].
    simpl. unfold Str.strip. rewrite (blank_lstrip _ Hw). simpl. exact IH. }
  destruct (negb _); by apply Hsplit.
Qed.

Lemma dict_set_elem (k v k' v' : string) (d : list (string * string)) :
  (k', v') ∈ dict_set k v d -> (k', v') ∈ d \/ (k' = k /\ v' = v).
Proof.
  induction d as [|[k0 v0] d IH]; simpl.
  - intros [= -> ->]%list_elem_of_singleton. by right.
  - destruct (decide (k = k0)) as [->|Hne].
    + intros [[= -> ->]|Hin]%elem_of_cons; [by right|].
      left. apply elem_of_cons. by right.
    + intros [[= -> ->]|Hin]%elem_of_cons.
      * left. apply elem_of_cons. by left.
      * destruct (IH Hin) as [?|?]; [|by right].
        left. apply elem_of_cons. by right.
Qed.

Lemma dict_update_elem (items : list (list string)) (k v : string) :
  forall d config,
    dict_update d items = Ok config -> (k, v) ∈ config ->
    (k, v) ∈ d \/ [k; v] ∈ items.
Proof.
  induction items as [|it items IH]; intros d config; simpl.
  - intros [= ->]. by left.
  - destruct it as [|a [|b [|c it]]]; try done.
    intros Hup Hin. destruct (IH _ _ Hup Hin) as [Hd|Hitems].
    + apply dict_set_elem in Hd as [Hd|[-> ->]]; [by left|].
      right. apply elem_of_cons. by left.
    + right. apply elem_of_cons. by right.
Qed.

Lemma dict_update_lengths (items : list (list string)) :
  forall d config,
    dict_update d items = Ok config ->
    Forall (fun item => length item = 2) items.
Proof.
  induction items as [|it items IH]; intros d config; simpl; [done|].
  destruct it as [|a [|b [|c it]]]; try done.
  intros Hup. constructor; [done|]. by eapply IH.
Qed.

(** A line that splits in two is its fields around its only colon. *)
Lemma split_in_two (line p r : string) :
  Str.split ":" line = [p; r] ->
  line = entry_line (p, r)
  /\ Str.contains ":" p = false /\ Str.contains ":" r = false.
Proof.
  intros Hsplit. pose proof (split_length ":" line) as Hlen.
  rewrite Hsplit in Hlen. simpl in Hlen.
  destruct (count_pos_cut ":" line) as (p' & r' & -> & Hp & Hc); [lia|].
  assert (Str.contains ":" r' = false) as Hr by (apply contains_count; lia).
  rewrite (split_first _ _ _ Hp), (split_none _ _ Hr) in Hsplit.
  by injection Hsplit as -> ->.
Qed.

(** X4: the mapping is built exactly when every line has one colon. *)
Theorem X4_mapping_iff_one_colon_each (per_file_ignores : string) :
  (exists config, parse_config per_file_ignores = Ok config)
  <-> Forall (fun line => Str.count ":" line = 1)
             (_parse_string per_file_ignores).
Proof.
  split.
  - intros [config Hcfg]. unfold parse_config in Hcfg.
    apply dict_update_lengths in Hcfg. apply Forall_fmap in Hcfg.
    eapply Forall_impl; [exact Hcfg|]. intros line Hlen. simpl in Hlen.
    rewrite split_length in Hlen. lia.
  - intros Hall. apply dict_update_good, Forall_fmap.
    eapply Forall_impl; [exact Hall|]. intros line Hone. simpl.
    by rewrite split_length, Hone.
Qed.

(** X5: every entry of the mapping is a line of the configuration cut
    at its only colon; its pattern does not begin with a line break, so
    the pattern that goes to [glob] is the pattern of the mapping. *)
Theorem X5_entries_are_lines (per_file_ignores pattern rules_str : string)
    (config : list (string * string)) :
  parse_config per_file_ignores = Ok config ->
  (pattern, rules_str) ∈ dict_items config ->
  entry_line (pattern, rules_str) ∈ _parse_string per_file_ignores
  /\ Str.contains ":" pattern = false
  /\ Str.contains ":" rules_str = false
  /\ Str.contains Str.LF pattern = false
  /\ without_line_break pattern = pattern.
Proof.
  intros Hcfg Hin. unfold parse_config in Hcfg.
  destruct (dict_update_elem _ _ _ _ _ Hcfg Hin) as [Hnil|Hitem];
    [by apply elem_of_nil in Hnil|].
  apply list_elem_of_fmap in Hitem as (line & Hsplit & Hline).
  symmetry in Hsplit. apply split_in_two in Hsplit as (-> & Hp & Hr).
  do 3 (split; [done|]).
  destruct (_parse_string_line_head _ _ Hline) as (Hlf & x & t & Hx & Hsp).
  rewrite entry_line_contains in Hlf.
  apply orb_false_elim in Hlf as [[Hlfp _]%orb_false_elim _].
  split; [done|]. unfold without_line_break.
  destruct pattern as [|y p]; [done|]. simpl.
  unfold entry_line in Hx. simpl in Hx. rewrite app_cons in Hx.
  injection Hx as -> _. simpl in Hlfp.
  apply orb_false_elim in Hlfp as [-> _]. done.
Qed.

(** X6: the rule tokens of an entry are non-empty, have no white space
    at either end and hold no comma; tokens of that kind, joined by
    commas, come back as they were. *)
Theorem X6_rule_tokens (rules_str : string) (tokens : list string) :
  (forall rule, rule ∈ parse_rules rules_str ->
                rule <> EmptyString /\ Str.strip rule = rule
                /\ Str.contains "," rule = false)
  /\ (Forall (fun rule => rule <> EmptyString /\ Str.strip rule = rule
                          /\ Str.contains "," rule = false) tokens ->
      parse_rules (join "," tokens) = tokens).
Proof.
  split.
  - intros rule. unfold parse_rules.
    intros [Ht (w & -> & Hw)%list_elem_of_fmap]%list_elem_of_filter.
    split; [apply truthy_nonempty; by destruct (Str.truthy _)|].
    split; [apply strip_idem|]. apply strip_contains.
    by apply (proj1 (Forall_forall _ _) (split_fields "," rules_str)).
  - intros Htok. unfold parse_rules. destruct tokens as [|t ts]; [done|].
    rewrite split_join; [|done|].
    2:{ eapply Forall_impl; [exact Htok|]. by intros ? (_ & _ & ?). }
    induction Htok as [|rule rest (Hne & Hstrip & _) _ IH]; [done|].
    rewrite map_cons, Hstrip, filter_cons_True, IH; [done|].
    apply truthy_nonempty in Hne. by rewrite Hne.
Qed.

(** ** Owners *)

Lemma find_first {A} (f : A -> bool) (l : list A) (x : A) :
  find f l = Some x <->
  exists l1 l2, l = l1 ++ x :: l2 /\ f x = true
                /\ Forall (fun y => f y = false) l1.
Proof.
  induction l as [|y l IH]; simpl.
  - split; [done|]. by intros ([|??] & ? & ? & _).
  - destruct (f y) eqn:Hy.
    + split.
      * intros [= ->]. by exists [], l.
      * intros ([|z l1] & l2 & Heq & Hx & Hall); simplify_eq/=; [done|].
        apply Forall_cons in Hall as [Hz _]. congruence.
    + rewrite IH. split.
      * intros (l1 & l2 & -> & Hx & Hall). exists (y :: l1), l2.
        split; [done|]. split; [done|]. by constructor.
      * intros ([|z l1] & l2 & Heq & Hx & Hall); simplify_eq/=; [congruence|].
        apply Forall_cons in Hall as [_ Hall]. by exists l1, l2.
Qed.

Lemma find_none_iff {A} (f : A -> bool) (l : list A) :
  find f l = None <-> Forall (fun y => f y = false) l.
Proof.
  induction l as [|y l IH]; simpl; [by split|].
  destruct (f y) eqn:Hy.
  - split; [done|]. intros [? _]%Forall_cons. congruence.
  - rewrite IH. split; [by constructor|]. by intros [_ ?]%Forall_cons.
Qed.

Lemma declares_spec (rule : string) (checker : BaseChecker) :
  declares rule checker = true <->
  exists key value, (key, value) ∈ msgs checker
                    /\ (rule = key \/ rule = msg_symbol value).
Proof.
  unfold declares. rewrite existsb_exists. split.
  - intros ([key value] & Hin%list_elem_of_In & Hor). exists key, value.
    split; [done|]. apply orb_prop in Hor as [H|H];
      apply bool_decide_eq_true in H; auto.
  - intros (key & value & Hin & Hor). exists (key, value).
    split; [by apply list_elem_of_In|].
    apply orb_true_iff. destruct Hor as [->| ->];
      [left|right]; by apply bool_decide_eq_true.
Qed.

(** X7: [_get_checker_by_msg] returns the first checker of the linter
    whose catalogue has the rule as a message id or as a symbol, and
    raises when no checker has it. *)
Theorem X7_first_declaring_checker (linter : PyLinter) (rule : string) :
  (forall checker,
      _get_checker_by_msg linter rule = Ok checker <->
      exists before after,
        get_checkers linter = before ++ checker :: after
        /\ (exists key value, (key, value) ∈ msgs checker
                              /\ (rule = key \/ rule = msg_symbol value))
        /\ Forall (fun c => forall key value,
                      (key, value) ∈ msgs c ->
                      rule <> key /\ rule <> msg_symbol value) before)
  /\ (_get_checker_by_msg linter rule = Err UnknownMessageError <->
      Forall (fun c => forall key value,
                (key, value) ∈ msgs c ->
                rule <> key /\ rule <> msg_symbol value) (get_checkers linter))
  /\ (forall e, _get_checker_by_msg linter rule = Err e ->
                e = UnknownMessageError).
Proof.
  assert (forall c, declares rule c = false <->
                    forall key value, (key, value) ∈ msgs c ->
                                      rule <> key /\ rule <> msg_symbol value)
    as Hnot.
  { intros c. rewrite <- not_true_iff_false, declares_spec. split.
    - intros Hn key value Hin. split; intros ->; apply Hn; eauto.
    - intros Hall (key & value & Hin & Hor).
      destruct (Hall _ _ Hin) as [??], Hor; done. }
  unfold _get_checker_by_msg. split; [|split].
  - intros checker.
    destruct (find (declares rule) (get_checkers linter)) as [c|] eqn:Hfind.
    + split.
      * intros [= <-]. apply find_first in Hfind as (l1 & l2 & ? & Hd & Hall).
        exists l1, l2. split; [done|]. split; [by apply declares_spec|].
        eapply Forall_impl; [exact Hall|]. intros ?. apply Hnot.
      * intros (l1 & l2 & Heq & Hd & Hall). f_equal.
        assert (find (declares rule) (get_checkers linter) = Some checker)
          as Hfind'.
        { apply find_first. exists l1, l2. split; [done|].
          split; [by apply declares_spec|].
          eapply Forall_impl; [exact Hall|]. intros ?. apply Hnot. }
        congruence.
    + split; [done|]. intros (l1 & l2 & Heq & Hd & Hall).
      apply find_none_iff in Hfind. rewrite Heq in Hfind.
      apply Forall_app in Hfind as [_ [Hc _]%Forall_cons].
      apply declares_spec in Hd. congruence.
  - destruct (find (declares rule) (get_checkers linter)) as [c|] eqn:Hfind.
    + split; [done|]. intros Hall.
      apply find_first in Hfind as (l1 & l2 & Heq & Hd & _).
      rewrite Heq in Hall. apply Forall_app in Hall as [_ [Hc _]%Forall_cons].
      apply Hnot in Hc. congruence.
    + split; [|done]. intros _. apply find_none_iff in Hfind.
      eapply Forall_impl; [exact Hfind|]. intros ?. apply Hnot.
  - intros e. by destruct (find _ _); intros [= <-].
Qed.

(** ** Groups *)

Lemma checker_eqb_sym (c1 c2 : BaseChecker) :
  checker_eqb c1 c2 = checker_eqb c2 c1.
Proof.
  unfold checker_eqb. apply bool_decide_ext. split; intros [??]; done.
Qed.

Lemma checker_eqb_declares (c1 c2 : BaseChecker) (rule : string) :
  checker_eqb c1 c2 = true -> declares rule c1 = declares rule c2.
Proof.
  unfold checker_eqb, declares. intros [_ Hm]%bool_decide_eq_true.
  by rewrite Hm.
Qed.

Lemma find_same (f1 f2 : BaseChecker -> bool) (l : list BaseChecker)
    (c1 c2 : BaseChecker) :
  find f1 l = Some c1 -> find f2 l = Some c2 ->
  f1 c2 = true -> f2 c1 = true -> c1 = c2.
Proof.
  induction l as [|x l IH]; simpl; [done|].
  destruct (f1 x) eqn:H1, (f2 x) eqn:H2; intros; simplify_eq; auto; congruence.
Qed.

(** Two owners that [BaseChecker.__eq__] takes for equal are one
    checker. *)
Lemma owner_unique (linter : PyLinter) (r1 r2 : string) (c1 c2 : BaseChecker) :
  owner linter r1 c1 -> owner linter r2 c2 ->
  checker_eqb c1 c2 = true -> c1 = c2.
Proof.
  unfold owner, _get_checker_by_msg. intros H1 H2 Heq.
  destruct (find (declares r1) _) as [c1'|] eqn:Hf1; [|done].
  destruct (find (declares r2) _) as [c2'|] eqn:Hf2; [|done].
  simplify_eq. eapply find_same; [exact Hf1|exact Hf2| |].
  - rewrite <- (checker_eqb_declares _ _ _ Heq).
    by apply find_some in Hf1 as [_ ?].
  - rewrite (checker_eqb_declares _ _ _ Heq).
    by apply find_some in Hf2 as [_ ?].
Qed.

Section Extend.

Context (linter : PyLinter) (R : string -> Prop).
Context (checker : BaseChecker) (defs : list MessageDefinition).

Lemma checkers_extend_keys (acc : list (BaseChecker * list MessageDefinition))
    (c : BaseChecker) (m : list MessageDefinition) :
  (c, m) ∈ checkers_extend checker defs acc ->
  c = checker \/ exists m0, (c, m0) ∈ acc.
Proof.
  induction acc as [|[c0 ms] rest IH]; simpl.
  - intros [= -> ->]%list_elem_of_singleton. by left.
  - destruct (checker_eqb checker c0).
    + intros [[= -> ->]|Hin]%elem_of_cons; right; eexists;
        apply elem_of_cons; [by left|by right].
    + intros [[= -> ->]|Hin]%elem_of_cons.
      * right. eexists. apply elem_of_cons. by left.
      * destruct (IH Hin) as [?|[m0 ?]]; [by left|].
        right. exists m0. apply elem_of_cons. by right.
Qed.

Lemma checkers_extend_keeps (acc : list (BaseChecker * list MessageDefinition))
    (c : BaseChecker) (m : list MessageDefinition) :
  (c, m) ∈ acc ->
  exists m', (c, m') ∈ checkers_extend checker defs acc /\ m ⊆ m'.
Proof.
  induction acc as [|[c0 ms] rest IH]; simpl; [by intros ?%elem_of_nil|].
  intros [[= -> ->]|Hin]%elem_of_cons; destruct (checker_eqb checker c0).
  - exists (ms ++ defs). split; [apply elem_of_cons; by left|].
    intros x Hx. apply elem_of_app. by left.
  - exists ms. split; [apply elem_of_cons; by left|done].
  - exists m. split; [apply elem_of_cons; by right|done].
  - destruct (IH Hin) as (m' & Hin' & Hsub). exists m'.
    split; [apply elem_of_cons; by right|done].
Qed.

Lemma checkers_extend_owner_keys
    (acc : list (BaseChecker * list MessageDefinition)) (rule : string) :
  R rule -> owner linter rule checker ->
  owner_keys linter R acc ->
  owner_keys linter R (checkers_extend checker defs acc).
Proof.
  intros HR Hown Hacc c m Hin.
  apply checkers_extend_keys in Hin as [->|[m0 Hin]]; [by exists rule|].
  by eapply Hacc.
Qed.

Lemma checkers_extend_captures
    (acc : list (BaseChecker * list MessageDefinition)) (rule : string) :
  owner linter rule checker -> owner_keys linter R acc ->
  exists m, (checker, m) ∈ checkers_extend checker defs acc /\ defs ⊆ m.
Proof.
  intros Hown. induction acc as [|[c0 ms] rest IH]; intros Hacc; simpl.
  - exists defs. split; [by apply list_elem_of_singleton|done].
  - destruct (checker_eqb checker c0) eqn:Heq.
    + destruct (Hacc c0 ms) as (r & _ & Hr); [apply elem_of_cons; by left|].
      rewrite <- (owner_unique _ _ _ _ _ Hown Hr Heq).
      exists (ms ++ defs). split; [apply elem_of_cons; by left|].
      intros x Hx. apply elem_of_app. by right.
    + destruct IH as (m & Hin & Hsub).
      { intros c m Hin. apply (Hacc c m). apply elem_of_cons. by right. }
      exists m. split; [apply elem_of_cons; by right|done].
Qed.

Lemma checkers_extend_sound
    (acc : list (BaseChecker * list MessageDefinition)) (rule : string)
    (c : BaseChecker) (m : list MessageDefinition) (msg : MessageDefinition) :
  owner linter rule checker -> owner_keys linter R acc ->
  (c, m) ∈ checkers_extend checker defs acc -> msg ∈ m ->
  (exists m0, (c, m0) ∈ acc /\ msg ∈ m0) \/ (c = checker /\ msg ∈ defs).
Proof.
  intros Hown. induction acc as [|[c0 ms] rest IH]; intros Hacc; simpl.
  - intros [= -> ->]%list_elem_of_singleton ?. by right.
  - assert (owner_keys linter R rest) as Hrest.
    { intros c' m' Hin. apply (Hacc c' m'). apply elem_of_cons. by right. }
    destruct (checker_eqb checker c0) eqn:Heq.
    + intros [[= -> ->]|Hin]%elem_of_cons Hmsg.
      * apply elem_of_app in Hmsg as [Hmsg|Hmsg].
        -- left. exists ms. split; [apply elem_of_cons; by left|done].
        -- right. split; [|done].
           destruct (Hacc c0 ms) as (r & _ & Hr); [apply elem_of_cons; by left|].
           symmetry. by eapply owner_unique.
      * left. exists m. split; [apply elem_of_cons; by right|done].
    + intros [[= -> ->]|Hin]%elem_of_cons Hmsg.
      * left. exists ms. split; [apply elem_of_cons; by left|done].
      * destruct (IH Hrest Hin Hmsg) as [(m0 & Hin0 & Hm0)|?]; [|by right].
        left. exists m0. split; [apply elem_of_cons; by right|done].
Qed.

Lemma checkers_extend_distinct
    (acc : list (BaseChecker * list MessageDefinition)) :
  distinct_keys acc -> distinct_keys (checkers_extend checker defs acc).
Proof.
  induction acc as [|[c0 ms] rest IH]; simpl; [done|].
  intros [Hall Hrest]. destruct (checker_eqb checker c0) eqn:Heq; simpl.
  - done.
  - split; [|by apply IH]. apply Forall_forall. intros [c m] Hin. simpl.
    apply checkers_extend_keys in Hin as [->|[m0 Hin]].
    + by rewrite checker_eqb_sym.
    + by apply (proj1 (Forall_forall _ _) Hall (c, m0)).
Qed.

End Extend.

Lemma resolve_rules_cons (linter : PyLinter) (rule : string)
    (rules : list string)
    (acc groups : list (BaseChecker * list MessageDefinition)) :
  resolve_rules linter (rule :: rules) acc = Ok groups ->
  exists defs checker,
    msgs_store linter rule = Some defs /\ owner linter rule checker
    /\ resolve_rules linter rules (checkers_extend checker defs acc) = Ok groups.
Proof.
  simpl. unfold get_message_definitions, owner.
  destruct (msgs_store linter rule) as [defs|]; [|done].
  destruct (_get_checker_by_msg linter rule) as [checker|]; [|done].
  intros Hres. by exists defs, checker.
Qed.

(** What the first loop builds, from any [defaultdict] it starts on. *)
Lemma resolve_rules_groups (linter : PyLinter) (R : string -> Prop)
    (rules : list string) :
  forall acc groups,
    resolve_rules linter rules acc = Ok groups ->
    (forall r, r ∈ rules -> R r) ->
    owner_keys linter R acc -> distinct_keys acc ->
    owner_keys linter R groups /\ distinct_keys groups
    /\ (forall c m, (c, m) ∈ acc -> exists m', (c, m') ∈ groups /\ m ⊆ m')
    /\ (forall rule, rule ∈ rules ->
          exists c defs m,
            owner linter rule c /\ msgs_store linter rule = Some defs
            /\ (c, m) ∈ groups /\ defs ⊆ m)
    /\ (forall c m msg,
          (c, m) ∈ groups -> msg ∈ m ->
          (exists m0, (c, m0) ∈ acc /\ msg ∈ m0)
          \/ exists rule defs,
              rule ∈ rules /\ owner linter rule c
              /\ msgs_store linter rule = Some defs /\ msg ∈ defs).
Proof.
  induction rules as [|rule rules IH]; intros acc groups Hres HR Hkeys Hdist.
  - injection Hres as <-. do 2 (split; [done|]). split; [by eauto|].
    split; [by intros ? ?%elem_of_nil|]. intros c m msg ??. left. by exists m.
  - apply resolve_rules_cons in Hres as (defs & checker & Hstore & Hown & Hres).
    assert (R rule) as HRr by (apply HR, elem_of_cons; by left).
    destruct (IH _ _ Hres) as (Hk & Hd & Hkeep & Hcap & Hsound).
    { intros r Hr. apply HR, elem_of_cons. by right. }
    { by eapply checkers_extend_owner_keys. }
    { by apply checkers_extend_distinct. }
    do 2 (split; [done|]). split; [|split].
    + intros c m Hin.
      destruct (checkers_extend_keeps checker defs _ _ _ Hin) as (m1 & Hin1 & Hs1).
      destruct (Hkeep _ _ Hin1) as (m2 & Hin2 & Hs2).
      exists m2. split; [done|]. by etrans.
    + intros r [->|Hr]%elem_of_cons.
      * destruct (checkers_extend_captures linter R checker defs acc rule Hown Hkeys)
          as (m1 & Hin1 & Hs1).
        destruct (Hkeep _ _ Hin1) as (m2 & Hin2 & Hs2).
        exists checker, defs, m2. do 3 (split; [done|]). by etrans.
      * by apply Hcap.
    + intros c m msg Hin Hmsg.
      destruct (Hsound _ _ _ Hin Hmsg) as [(m0 & Hin0 & Hm0)|(r & ds & Hr & ?)].
      * destruct (checkers_extend_sound linter R checker defs acc rule
                    c m0 msg Hown Hkeys Hin0 Hm0) as [?|[-> Hmsg']]; [by left|].
        right. exists rule, defs. split; [apply elem_of_cons; by left|done].
      * right. exists r, ds. split; [apply elem_of_cons; by right|done].
Qed.

(** X8: when the first loop of [_augment_add_message] goes through, no
    two groups have keys that [BaseChecker.__eq__] takes for equal,
    every rule has an owner and definitions and finds them all in its
    owner's group, and every message of a group is a definition of a
    rule of that group's owner. *)
Theorem X8_rules_grouped_by_owner (linter : PyLinter) (rules : list string)
    (checkers : list (BaseChecker * list MessageDefinition)) :
  resolve_rules linter rules [] = Ok checkers ->
  distinct_keys checkers
  /\ (forall rule, rule ∈ rules ->
        exists c defs messages,
          _get_checker_by_msg linter rule = Ok c
          /\ msgs_store linter rule = Some defs
          /\ (c, messages) ∈ checkers /\ defs ⊆ messages)
  /\ (forall c messages msg,
        (c, messages) ∈ checkers -> msg ∈ messages ->
        exists rule defs,
          rule ∈ rules /\ _get_checker_by_msg linter rule = Ok c
          /\ msgs_store linter rule = Some defs /\ msg ∈ defs).
Proof.
  intros Hres.
  destruct (resolve_rules_groups linter (fun r => r ∈ rules) rules [] checkers Hres)
    as (_ & Hd & _ & Hcap & Hsound); [done| |done|].
  { by intros ? ? ?%elem_of_nil. }
  split; [done|]. split; [exact Hcap|].
  intros c messages msg Hin Hmsg.
  destruct (Hsound _ _ _ Hin Hmsg) as [(? & ?%elem_of_nil & _)|?]; done.
Qed.

(** ** From the configuration to the emissions *)

Section Effects.

Context (absolute : string -> Path) (glob : string -> list string).


Lemma new_layers_elem (files : list Path)
    (checkers : list (BaseChecker * list MessageDefinition))
    (c : BaseChecker) (messages : list MessageDefinition) :
  (c, messages) ∈ checkers ->
  (files, messages) ∈ new_layers files checkers (class_of c).
Proof.
  intros Hin. unfold new_layers. apply list_elem_of_fmap.
  exists (c, messages). split; [done|]. by apply list_elem_of_filter.
Qed.

Lemma load_items_resolved (linter : PyLinter) (items : list (string * string)) :
  forall classes classes',
    load_items absolute glob linter items classes = (Ok tt, classes') ->
    forall pattern rules_str,
      (pattern, rules_str) ∈ items ->
      exists checkers,
        resolve_rules linter (parse_rules rules_str) [] = Ok checkers.
Proof.
  induction items as [|[p rs] items IH]; intros classes classes' Hload.
  - by intros ?? ?%elem_of_nil.
  - cbn [load_items] in Hload. unfold bind in Hload.
    rewrite load_item_run in Hload.
    destruct (resolve_rules linter (parse_rules rs) []) as [cs|] eqn:Hres;
      [|done].
    intros pattern rules_str [[= -> ->]|Hin]%elem_of_cons; [by exists cs|].
    by eapply IH.
Qed.



(** X9: after a load that goes through, for every entry of the mapping
    and every rule token of it, an emission whose message id is passed
    positionally and has, in the store, a definition that the token has
    too, made while the current file is one that the entry's pattern
    matched, is dropped on the class of the token's owner. *)
Theorem X9_listed_emissions_dropped (linter : PyLinter)
    (config : list (string * string)) (classes classes' : gmap nat method)
    (pattern rules_str rule : string) :
  parse_config (per_file_ignores linter) = Ok config ->
  load_configuration absolute glob linter classes = (Ok tt, classes') ->
  (pattern, rules_str) ∈ dict_items config ->
  rule ∈ parse_rules rules_str ->
  exists c defs,
    _get_checker_by_msg linter rule = Ok c
    /\ msgs_store linter rule = Some defs
    /\ forall linter' args kwargs F file R defs' msg,
        current_file linter' = Some F -> Str.truthy F = true ->
        file ∈ glob (without_line_break pattern) ->
        absolute F = absolute file ->
        args !! 1 = Some (VStr R) -> msgs_store linter' R = Some defs' ->
        msg ∈ defs' -> msg ∈ defs ->
        call absolute (class_getattr classes' (class_of c)) linter' args kwargs
        = Dropped.
Proof.
  intros Hcfg Hload Hitem Hrule.
  rewrite (load_configuration_parsed _ _ _ _ _ Hcfg) in Hload.
  destruct (load_items_resolved _ _ _ _ Hload _ _ Hitem) as [checkers Hres].
  destruct (resolve_rules_groups linter (fun _ => True) _ _ _ Hres)
    as (_ & _ & _ & Hcap & _); [done| |done|].
  { by intros ?? ?%elem_of_nil. }
  destruct (Hcap _ Hrule) as (c & defs & m & Hown & Hstore & Hin & Hsub).
  exists c, defs. do 2 (split; [done|]).
  intros linter' args kwargs F file R defs' msg Hcf HF Hfile Habs Harg Hst Hm Hm'.
  apply (call_dropped_iff _ _ _ _ _ F R defs'); try done.
  exists (map absolute (glob (without_line_break pattern))), m. split.
  - rewrite (load_items_layers _ _ _ _ _ _ _ Hload). apply elem_of_app. left.
    apply elem_of_rev_concat_map. exists (pattern, rules_str).
    split; [done|]. unfold item_layers. cbn [fst snd]. rewrite Hres.
    by apply new_layers_elem.
  - split; [|exists msg; split; [done|by apply Hsub]].
    rewrite Habs. apply list_elem_of_fmap. by exists file.
Qed.


Lemma new_layers_none (files : list Path)
    (checkers : list (BaseChecker * list MessageDefinition)) (cls : nat) :
  (forall c m, (c, m) ∈ checkers -> class_of c <> cls) ->
  new_layers files checkers cls = [].
Proof.
  unfold new_layers. induction checkers as [|[c m] rest IH]; intros Hall; [done|].
  rewrite filter_cons_False.
  - apply IH. intros c' m' Hin. apply (Hall c' m'). apply elem_of_cons. by right.
  - simpl. apply (Hall c m). apply elem_of_cons. by left.
Qed.

Lemma load_items_untouched (linter : PyLinter) (cls : nat)
    (items : list (string * string)) :
  (forall pattern rules_str rule c,
      (pattern, rules_str) ∈ items -> rule ∈ parse_rules rules_str ->
      _get_checker_by_msg linter rule = Ok c -> class_of c <> cls) ->
  forall classes res classes',
    load_items absolute glob linter items classes = (res, classes') ->
    class_getattr classes' cls = class_getattr classes cls.
Proof.
  induction items as [|[p rs] items IH]; intros Hall classes res classes'.
  - by intros [= _ <-].
  - cbn [load_items]. unfold bind. rewrite load_item_run.
    destruct (resolve_rules linter (parse_rules rs) []) as [cs|] eqn:Hres;
      [|by intros [= _ <-]].
    assert (forall pattern rules_str rule c,
               (pattern, rules_str) ∈ items -> rule ∈ parse_rules rules_str ->
               _get_checker_by_msg linter rule = Ok c -> class_of c <> cls)
      as Hrest.
    { intros pattern rules_str rule c Hin. apply (Hall pattern).
      apply elem_of_cons. by right. }
    intros Hload. rewrite (IH Hrest _ _ _ Hload).
    rewrite install_getattr, new_layers_none; [done|].
      destruct (resolve_rules_groups linter (fun r => r ∈ parse_rules rs)
                _ _ _ Hres) as (Hkeys & _); [done| |done|].
    { by intros ?? ?%elem_of_nil. }
    intros c m Hin. destruct (Hkeys _ _ Hin) as (r & Hr & Hown).
    apply (Hall p rs r c); [apply elem_of_cons; by left|done|done].
Qed.

(** X11: a load, whether it goes through or fails, leaves [add_message]
    as it was on every class that is not the class of the owner of a
    rule token of the mapping. *)
Theorem X11_other_classes_untouched (linter : PyLinter)
    (classes : gmap nat method) (res : result unit)
    (classes' : gmap nat method) (cls : nat) :
  load_configuration absolute glob linter classes = (res, classes') ->
  (forall config pattern rules_str rule c,
      parse_config (per_file_ignores linter) = Ok config ->
      (pattern, rules_str) ∈ dict_items config ->
      rule ∈ parse_rules rules_str ->
      _get_checker_by_msg linter rule = Ok c -> class_of c <> cls) ->
  class_getattr classes' cls = class_getattr classes cls.
Proof.
  unfold load_configuration, bind, lift.
  destruct (parse_config (per_file_ignores linter)) as [config|];
    [|by intros [= _ <-]].
  intros Hload Hall. eapply load_items_untouched; [|exact Hload].
  intros pattern rules_str rule c. by apply Hall.
Qed.


Lemma call_without_file (m : method) (linter : PyLinter)
    (args : list value) (kwargs : list (kwname * value)) :
  layers m <> [] ->
  current_file linter = None \/ current_file linter = Some EmptyString ->
  call absolute m linter args kwargs = Raised AssertionError.
Proof.
  destruct m as [|files messages ppfi_func]; [done|]. intros _ Hcf.
  simpl. unfold _add_message. by destruct Hcf as [-> | ->].
Qed.

(** X13: after a load that goes through, the class of the owner of any
    rule token of the mapping raises AssertionError on every emission
    made while the linter has no current file, whatever rule is
    emitted. *)
Theorem X13_no_current_file_raises (linter : PyLinter)
    (config : list (string * string)) (classes classes' : gmap nat method)
    (pattern rules_str rule : string) :
  parse_config (per_file_ignores linter) = Ok config ->
  load_configuration absolute glob linter classes = (Ok tt, classes') ->
  (pattern, rules_str) ∈ dict_items config ->
  rule ∈ parse_rules rules_str ->
  exists c,
    _get_checker_by_msg linter rule = Ok c
    /\ forall linter' args kwargs,
        current_file linter' = None
        \/ current_file linter' = Some EmptyString ->
        call absolute (class_getattr classes' (class_of c)) linter' args kwargs
        = Raised AssertionError.
Proof.
  intros Hcfg Hload Hitem Hrule.
  rewrite (load_configuration_parsed _ _ _ _ _ Hcfg) in Hload.
  destruct (load_items_resolved _ _ _ _ Hload _ _ Hitem) as [checkers Hres].
  destruct (resolve_rules_groups linter (fun _ => True) _ _ _ Hres)
    as (_ & _ & _ & Hcap & _); [done| |done|].
  { by intros ?? ?%elem_of_nil. }
  destruct (Hcap _ Hrule) as (c & defs & m & Hown & Hstore & Hin & Hsub).
  exists c. split; [done|]. intros linter' args kwargs Hcf.
  apply call_without_file; [|done].
  assert ((map absolute (glob (without_line_break pattern)), m)
            ∈ layers (class_getattr classes' (class_of c))) as Hlayer.
  { rewrite (load_items_layers _ _ _ _ _ _ _ Hload). apply elem_of_app. left.
    apply elem_of_rev_concat_map. exists (pattern, rules_str).
    split; [done|]. unfold item_layers. cbn [fst snd]. rewrite Hres.
    by apply new_layers_elem. }
  intros Hnil. rewrite Hnil in Hlayer. by apply elem_of_nil in Hlayer.
Qed.


(** X16: a configuration of white space only, the default empty string
    among them, loads without error and leaves every class as it
    was. *)
Theorem X16_blank_configuration (linter : PyLinter)
    (classes : gmap nat method) :
  blank (per_file_ignores linter) = true ->
  _parse_string (per_file_ignores linter) = []
  /\ load_configuration absolute glob linter classes = (Ok tt, classes).
Proof.
  intros Hblank. pose proof (blank_parse_string _ Hblank) as Hnil.
  split; [done|].
  unfold load_configuration, bind, lift, parse_config. by rewrite Hnil.
Qed.

Lemma find_without (f : BaseChecker -> bool) (before after : list BaseChecker)
    (c : BaseChecker) :
  f c = false -> find f (before ++ c :: after) = find f (before ++ after).
Proof.
  intros Hc. induction before as [|x before IH]; simpl; [by rewrite Hc|].
  by destruct (f x).
Qed.

Lemma resolve_rules_with_checkers (linter : PyLinter)
    (checkers : list BaseChecker) (rules : list string) :
  (forall rule, _get_checker_by_msg (with_checkers linter checkers) rule =
                _get_checker_by_msg linter rule) ->
  forall acc, resolve_rules (with_checkers linter checkers) rules acc =
              resolve_rules linter rules acc.
Proof.
  intros Hsame. induction rules as [|rule rules IH]; intros acc; [done|].
  simpl. rewrite Hsame.
  change (get_message_definitions (with_checkers linter checkers) (VStr rule))
    with (get_message_definitions linter (VStr rule)).
  destruct (get_message_definitions linter (VStr rule)); [|done].
  destruct (_get_checker_by_msg linter rule); [apply IH|done].
Qed.

(** X15: the plugin's own checker has an empty catalogue, so wherever
    it stands among the checkers it is the owner of no rule, and the
    owner of every rule and every load are what they are without
    it. *)
Theorem X15_plugin_checker_owns_nothing (linter : PyLinter) (cls : nat)
    (before after : list BaseChecker) :
  get_checkers linter = before ++ PerFileIgnoresChecker cls :: after ->
  (forall rule,
      _get_checker_by_msg linter rule =
      _get_checker_by_msg (with_checkers linter (before ++ after)) rule)
  /\ (forall rule c, _get_checker_by_msg linter rule = Ok c -> msgs c <> [])
  /\ (forall classes,
        load_configuration absolute glob linter classes =
        load_configuration absolute glob
          (with_checkers linter (before ++ after)) classes).
Proof.
  intros Hcs.
  assert (forall rule,
      _get_checker_by_msg (with_checkers linter (before ++ after)) rule =
      _get_checker_by_msg linter rule) as Hsame.
  { intros rule. unfold _get_checker_by_msg. simpl. rewrite Hcs.
    by rewrite find_without. }
  split; [by intros rule; rewrite Hsame|]. split.
  - intros rule c. unfold _get_checker_by_msg.
    destruct (find _ _) as [c'|] eqn:Hfind; [|done]. intros [= <-].
    apply find_some in Hfind as [_ Hd]. unfold declares in Hd.
    by destruct (msgs c').
  - intros classes. unfold load_configuration, bind, lift. simpl.
    destruct (parse_config (per_file_ignores linter)) as [config|]; [|done].
    unfold dict_items. revert classes.
    induction config as [|[p rs] items IH]; intros classes; [done|].
    cbn [load_items]. unfold bind. rewrite !load_item_run.
    rewrite (resolve_rules_with_checkers _ _ _ Hsame).
    destruct (resolve_rules linter (parse_rules rs) []); [apply IH|done].
Qed.

End Effects.

(** ** A comma inside a pattern *)

Section CommaInPattern.

Context (absolute : string -> Path) (glob : string -> list string).

(** X17: in a flat string, a pattern with a comma in it is cut at the
    comma, the pattern being the run without comma or colon that stands
    before the colon.  In the first entry, what stands before the comma
    becomes a line of its own, without a colon, and the load fails with
    ValueError.  In a later entry, what stands before the comma stays on
    the line of the entry before, after its rule list. *)
Theorem X17_comma_in_pattern_cuts_it (p1 p2 r : string) :
  Str.contains ":" p1 = false ->
  p2 <> EmptyString ->
  Str.contains "," p2 = false -> Str.contains ":" p2 = false ->
  (Str.contains "," p1 = false -> Str.strip p1 <> EmptyString ->
   Str.contains Str.LF (p1 +:+ String "," (p2 +:+ String ":" r)) = false ->
   re_sub (p1 +:+ String "," (p2 +:+ String ":" r)) =
   p1 +:+ String Str.LF (p2 +:+ String ":" (re_sub r))
   /\ Str.strip p1 ∈ _parse_string (p1 +:+ String "," (p2 +:+ String ":" r))
   /\ forall linter classes,
       per_file_ignores linter = p1 +:+ String "," (p2 +:+ String ":" r) ->
       load_configuration absolute glob linter classes =
       (Err ValueError, classes))
  /\ (forall p0 r0,
        Str.contains "," p0 = false -> Str.contains ":" r0 = false ->
        re_sub (p0 +:+ String ":" (r0 +:+ String ","
                  (p1 +:+ String "," (p2 +:+ String ":" r)))) =
        p0 +:+ String ":" (r0 +:+ String ","
          (p1 +:+ String Str.LF (p2 +:+ String ":" (re_sub r)))))
  /\ (forall p0 r0,
        Str.contains "," p0 = false -> Str.contains ":" r0 = false ->
        Str.contains Str.LF
          (p0 +:+ String ":" (r0 +:+ String ","
             (p1 +:+ String "," (p2 +:+ String ":" r)))) = false ->
        Str.strip (p0 +:+ String ":" (r0 +:+ String "," p1)) <> EmptyString ->
        Str.strip (p0 +:+ String ":" (r0 +:+ String "," p1))
          ∈ _parse_string
              (p0 +:+ String ":" (r0 +:+ String ","
                 (p1 +:+ String "," (p2 +:+ String ":" r))))).
Proof.
  intros Hx1 Hne2 Hc2 Hx2.
  assert (forall p0 r0,
      Str.contains "," p0 = false -> Str.contains ":" r0 = false ->
      re_sub (p0 +:+ String ":" (r0 +:+ String ","
                (p1 +:+ String "," (p2 +:+ String ":" r)))) =
      (p0 +:+ String ":" (r0 +:+ String "," p1))
      +:+ String Str.LF (p2 +:+ String ":" (re_sub r))) as Hlater.
  { intros p0 r0 Hc0 Hr0. unfold re_sub.
    rewrite (re_sub_from_copy _ _ Hc0).
    change (re_sub_from 0 (String ":" ?u)) with (String ":" (re_sub_from 0 u)).
    replace (r0 +:+ String "," (p1 +:+ String "," (p2 +:+ String ":" r)))
      with ((r0 +:+ String "," p1) +:+ String "," (p2 +:+ String ":" r))
      by (by rewrite app_assoc_str, app_cons).
    rewrite re_sub_from_rules.
    - rewrite (re_sub_from_entry _ _ Hne2 Hc2 Hx2).
      by rewrite (app_assoc_str p0), app_cons.
    - rewrite contains_app. simpl. by rewrite Hr0, Hx1. }
  split; [|split].
  - intros Hc1 Hne1 Hlf.
    assert (re_sub (p1 +:+ String "," (p2 +:+ String ":" r)) =
            p1 +:+ String Str.LF (p2 +:+ String ":" (re_sub r))) as Hsub.
    { unfold re_sub. by rewrite (re_sub_from_copy _ _ Hc1),
        (re_sub_from_entry _ _ Hne2 Hc2 Hx2). }
    assert (Str.strip p1
              ∈ _parse_string (p1 +:+ String "," (p2 +:+ String ":" r)))
      as Hin.
    { unfold _parse_string. rewrite Hlf. simpl negb. cbv iota. rewrite Hsub.
      unfold _splitstrip. rewrite split_first.
      - apply list_elem_of_omap. exists p1.
        split; [apply elem_of_cons; by left|].
        apply truthy_nonempty in Hne1. by rewrite Hne1.
      - rewrite contains_app in Hlf. by apply orb_false_elim in Hlf as [? _]. }
    do 2 (split; [done|]). intros linter classes Hcfg.
    apply (load_configuration_bad_line _ _ _ (Str.strip p1)).
    + by rewrite Hcfg.
    + rewrite split_length.
      pose proof (proj1 (contains_count ":" _) (strip_contains ":" _ Hx1)). lia.
  - intros p0 r0 Hc0 Hr0. rewrite (Hlater p0 r0 Hc0 Hr0).
    by rewrite !app_assoc_str, !app_cons, !app_assoc_str, !app_cons.
  - intros p0 r0 Hc0 Hr0 Hlf Hne.
    unfold _parse_string. rewrite Hlf. simpl negb. cbv iota.
    rewrite (Hlater p0 r0 Hc0 Hr0). unfold _splitstrip. rewrite split_first.
    + apply list_elem_of_omap. eexists.
      split; [apply elem_of_cons; by left|].
      apply truthy_nonempty in Hne. by rewrite Hne.
    + rewrite contains_app, contains_cons, contains_app, contains_cons,
        contains_app in Hlf.
      apply orb_false_elim in Hlf as [H0 Hlf].
      apply orb_false_elim in Hlf as [_ Hlf].
      apply orb_false_elim in Hlf as [H1 Hlf].
      apply orb_false_elim in Hlf as [_ Hlf].
      apply orb_false_elim in Hlf as [H2 _].
      rewrite contains_app, contains_cons, contains_app, contains_cons.
      by rewrite H0, H1, H2.
Qed.

End CommaInPattern.

(** ** The further properties at work on the demo project *)

Lemma X1_witness :
  "b/*.py:R3" <> EmptyString
  /\ Str.strip "b/*.py:R3" = "b/*.py:R3"
  /\ Str.contains Str.LF "b/*.py:R3" = false
  /\ exists x t, "b/*.py:R3" = String x t /\ Str.isspace x = false.
Proof.
  apply (X1_parse_string_lines Demo.multi_line "b/*.py:R3"). by_compute.
Defined.

Lemma demo_entries_plain : Forall plain_entry Demo.entries.
Proof. repeat (constructor; [repeat split; done|]). constructor. Defined.

Lemma X2_witness :
  re_sub (flattened_encoding Demo.entries) = multi_line_encoding Demo.entries
  /\ _parse_string (flattened_encoding Demo.entries) =
     _parse_string (multi_line_encoding Demo.entries)
  /\ parse_config (flattened_encoding Demo.entries) =
     parse_config (multi_line_encoding Demo.entries).
Proof. apply (X2_flat_and_lines_agree Demo.entries), demo_entries_plain. Defined.

Lemma X3_witness :
  parse_config (multi_line_encoding Demo.entries) = Ok Demo.entries
  /\ parse_config (flattened_encoding Demo.entries) = Ok Demo.entries.
Proof.
  apply (X3_encode_then_parse Demo.entries).
  - apply demo_entries_plain.
  - repeat (constructor; [reflexivity|]). constructor.
  - by_compute.
Defined.

Lemma X4_witness :
  Forall (fun line => Str.count ":" line = 1) (_parse_string Demo.multi_line).
Proof.
  apply (proj1 (X4_mapping_iff_one_colon_each Demo.multi_line)).
  exists [("a/*.py", "R1,R2"); ("b/*.py", "R3")]. reflexivity.
Defined.

Lemma X5_witness :
  entry_line ("b/*.py", "R3") ∈ _parse_string Demo.flattened
  /\ Str.contains ":" "b/*.py" = false
  /\ Str.contains ":" "R3" = false
  /\ Str.contains Str.LF "b/*.py" = false
  /\ without_line_break "b/*.py" = "b/*.py".
Proof.
  apply (X5_entries_are_lines Demo.flattened "b/*.py" "R3" Demo.entries).
  - reflexivity.
  - by_compute.
Defined.

Lemma X6_witness :
  parse_rules (join "," ["W0611"; "line-too-long"]) = ["W0611"; "line-too-long"].
Proof.
  apply (proj2 (X6_rule_tokens EmptyString ["W0611"; "line-too-long"])).
  repeat (constructor; [repeat split; done|]). constructor.
Defined.

Lemma X7_witness :
  exists before after,
    get_checkers (Demo.linter "" None) = before ++ Demo.format :: after
    /\ (exists key value, (key, value) ∈ msgs Demo.format
                          /\ ("line-too-long" = key
                              \/ "line-too-long" = msg_symbol value))
    /\ Forall (fun c => forall key value,
                  (key, value) ∈ msgs c ->
                  "line-too-long" <> key /\ "line-too-long" <> msg_symbol value)
         before.
Proof.
  apply (proj1 (proj1 (X7_first_declaring_checker (Demo.linter "" None)
                         "line-too-long") Demo.format)).
  reflexivity.
Defined.

Lemma X8_witness :
  exists c defs messages,
    _get_checker_by_msg (Demo.linter "" None) "C0415" = Ok c
    /\ msgs_store (Demo.linter "" None) "C0415" = Some defs
    /\ (c, messages) ∈ [(Demo.imports, [Demo.unused_import; Demo.import_outside]);
                         (Demo.format, [Demo.line_too_long])]
    /\ defs ⊆ messages.
Proof.
  apply (proj1 (proj2 (X8_rules_grouped_by_owner (Demo.linter "" None)
                         ["unused-import"; "line-too-long"; "C0415"]
                         [(Demo.imports,
                           [Demo.unused_import; Demo.import_outside]);
                          (Demo.format, [Demo.line_too_long])] eq_refl))).
  by_compute.
Defined.

Lemma X9_witness :
  exists c defs,
    _get_checker_by_msg (Demo.linter Demo.tests_entry None) "unused-import" = Ok c
    /\ msgs_store (Demo.linter Demo.tests_entry None) "unused-import" = Some defs
    /\ forall linter' args kwargs F file R defs' msg,
        current_file linter' = Some F -> Str.truthy F = true ->
        file ∈ Demo.glob (without_line_break "tests/*") ->
        Demo.absolute F = Demo.absolute file ->
        args !! 1 = Some (VStr R) -> msgs_store linter' R = Some defs' ->
        msg ∈ defs' -> msg ∈ defs ->
        call Demo.absolute (class_getattr Demo.tests_loaded (class_of c))
          linter' args kwargs = Dropped.
Proof.
  apply (X9_listed_emissions_dropped Demo.absolute Demo.glob
           (Demo.linter Demo.tests_entry None)
           [("tests/*", "unused-import,line-too-long")] ∅ Demo.tests_loaded
           "tests/*" "unused-import,line-too-long" "unused-import").
  - reflexivity.
  - reflexivity.
  - by_compute.
  - by_compute.
Defined.


Lemma X11_witness :
  class_getattr
    (load_configuration Demo.absolute Demo.glob
       (Demo.linter "tests/*:unused-import" None) ∅).2 2
  = class_getattr ∅ 2.
Proof.
  apply (X11_other_classes_untouched Demo.absolute Demo.glob
           (Demo.linter "tests/*:unused-import" None) ∅
           (load_configuration Demo.absolute Demo.glob
              (Demo.linter "tests/*:unused-import" None) ∅).1).
  - reflexivity.
  - intros config pattern rules_str rule c Hcfg Hin Hrule Hown.
    vm_compute in Hcfg. injection Hcfg as <-.
    apply list_elem_of_singleton in Hin. injection Hin as -> ->.
    vm_compute in Hrule. apply list_elem_of_singleton in Hrule. subst rule.
    vm_compute in Hown. injection Hown as <-. simpl. lia.
Defined.


Lemma X13_witness :
  exists c,
    _get_checker_by_msg (Demo.linter Demo.tests_entry None) "line-too-long" = Ok c
    /\ forall linter' args kwargs,
        current_file linter' = None
        \/ current_file linter' = Some EmptyString ->
        call Demo.absolute (class_getattr Demo.tests_loaded (class_of c))
          linter' args kwargs = Raised AssertionError.
Proof.
  apply (X13_no_current_file_raises Demo.absolute Demo.glob
           (Demo.linter Demo.tests_entry None)
           [("tests/*", "unused-import,line-too-long")] ∅ Demo.tests_loaded
           "tests/*" "unused-import,line-too-long" "line-too-long").
  - reflexivity.
  - reflexivity.
  - by_compute.
  - by_compute.
Defined.


Lemma X15_witness :
  load_configuration Demo.absolute Demo.glob
    (demo_linter_with_plugin Demo.tests_entry) ∅
  = load_configuration Demo.absolute Demo.glob
      (with_checkers (demo_linter_with_plugin Demo.tests_entry)
         ([Demo.imports] ++ [Demo.format])) ∅.
Proof.
  apply (X15_plugin_checker_owns_nothing Demo.absolute Demo.glob
           (demo_linter_with_plugin Demo.tests_entry) 9
           [Demo.imports] [Demo.format] eq_refl).
Defined.

Lemma X16_witness :
  _parse_string (per_file_ignores (Demo.linter per_file_ignores_default None))
  = []
  /\ load_configuration Demo.absolute Demo.glob
       (Demo.linter per_file_ignores_default None) Demo.one_closure
     = (Ok tt, Demo.one_closure).
Proof.
  apply (X16_blank_configuration Demo.absolute Demo.glob
           (Demo.linter per_file_ignores_default None) Demo.one_closure).
  reflexivity.
Defined.

Lemma X17_witness :
  (re_sub ("src/a" +:+ String "," ("b.py" +:+ String ":" "W0611")) =
   "src/a" +:+ String Str.LF ("b.py" +:+ String ":" (re_sub "W0611"))
   /\ Str.strip "src/a"
        ∈ _parse_string ("src/a" +:+ String "," ("b.py" +:+ String ":" "W0611"))
   /\ forall linter classes,
       per_file_ignores linter =
       "src/a" +:+ String "," ("b.py" +:+ String ":" "W0611") ->
       load_configuration Demo.absolute Demo.glob linter classes =
       (Err ValueError, classes))
  /\ Str.strip ("tests/*" +:+ String ":" ("C0301" +:+ String "," "src/a"))
       ∈ _parse_string
           ("tests/*" +:+ String ":" ("C0301" +:+ String ","
              ("src/a" +:+ String "," ("b.py" +:+ String ":" "W0611")))).
Proof.
  destruct (X17_comma_in_pattern_cuts_it Demo.absolute Demo.glob
              "src/a" "b.py" "W0611" eq_refl ltac:(done) eq_refl eq_refl)
    as (Hfirst & _ & Hlater).
  split.
  - apply Hfirst; done.
  - apply (Hlater "tests/*" "C0301"); done.
Defined.

(** * Which linter a closure reads *)

(** C8, as the code has it: the decision of a closure is read off its
    captured files and messages, the current file and the store of the
    linter it captured when it was installed, the working directory
    through [Path.absolute], and the rule argument; two emissions that
    agree on these are decided alike, whatever the other arguments and
    the other linters of the process hold. *)
Theorem C8_decision_reads_captured_linter
    (absolute1 absolute2 : string -> Path)
    (linters1 linters2 : nat -> PyLinter) (captured : nat)
    (files : list Path) (ppfi_messages : list MessageDefinition)
    (args1 args2 : list value) (kwargs1 kwargs2 : list (kwname * value)) :
  current_file (linters1 captured) = current_file (linters2 captured) ->
  (forall F, current_file (linters1 captured) = Some F ->
             absolute1 F = absolute2 F) ->
  args1 !! 1 = args2 !! 1 ->
  (forall R, args1 !! 1 = Some (VStr R) ->
             msgs_store (linters1 captured) R = msgs_store (linters2 captured) R) ->
  decision_of (closure_step absolute1 linters1 captured files ppfi_messages
                 args1 kwargs1)
  = decision_of (closure_step absolute2 linters2 captured files ppfi_messages
                   args2 kwargs2).
Proof.
  intros Hcf Habs Harg Hstore. unfold closure_step, _add_message.
  rewrite <- Hcf, <- Harg.
  destruct (current_file (linters1 captured)) as [cf|]; [|done].
  rewrite <- (Habs cf eq_refl).
  destruct (negb (Str.truthy cf)); [done|].
  destruct (bool_decide (absolute1 cf ∈ files)); [|done].
  destruct (args1 !! 1) as [x|]; [|done].
  destruct x as [|R| |]; try done. unfold get_message_definitions.
  rewrite <- (Hstore R eq_refl).
  destruct (msgs_store (linters1 captured) R) as [defs|]; [|done].
  by destruct (existsb _ defs).
Qed.

(** The same closure, the same rule argument and the same file under
    check by the emitting linter, and three decisions: the closure
    reads the file of linter 0, which installed it. *)
Lemma C8_decision_follows_captured_linter :
  current_file (Demo.two_linters (Some "tests/a.py") 1) = Some "tests/a.py"
  /\ current_file (Demo.two_linters (Some "other/c.py") 1) = Some "tests/a.py"
  /\ current_file (Demo.two_linters None 1) = Some "tests/a.py"
  /\ decision_of
       (closure_step Demo.absolute (Demo.two_linters (Some "tests/a.py")) 0
          ["/w/tests/a.py"; "/w/tests/b.py"] [Demo.unused_import]
          [VObj 1; VStr "W0611"] Demo.kw) = Suppress
  /\ decision_of
       (closure_step Demo.absolute (Demo.two_linters (Some "other/c.py")) 0
          ["/w/tests/a.py"; "/w/tests/b.py"] [Demo.unused_import]
          [VObj 1; VStr "W0611"] Demo.kw) = Forward
  /\ decision_of
       (closure_step Demo.absolute (Demo.two_linters None) 0
          ["/w/tests/a.py"; "/w/tests/b.py"] [Demo.unused_import]
          [VObj 1; VStr "W0611"] Demo.kw) = Fail AssertionError
  /\ call_closure Demo.absolute (Demo.two_linters (Some "tests/a.py"))
       Demo.closure_of_linter_0 [VObj 1; VStr "W0611"] Demo.kw = Dropped
  /\ call_closure Demo.absolute (Demo.two_linters (Some "other/c.py"))
       Demo.closure_of_linter_0 [VObj 1; VStr "W0611"] Demo.kw
     = Emitted [VObj 1; VStr "W0611"] Demo.kw.
Proof. vm_compute. done. Qed.

Lemma C8_witness :
  decision_of
    (closure_step Demo.absolute (Demo.two_linters (Some "tests/a.py")) 0
       ["/w/tests/a.py"; "/w/tests/b.py"] [Demo.unused_import]
       [VObj 1; VStr "W0611"] Demo.kw)
  = decision_of
      (closure_step Demo.absolute
         (fun _ => Demo.linter "" (Some "tests/a.py")) 0
         ["/w/tests/a.py"; "/w/tests/b.py"] [Demo.unused_import]
         [VObj 7; VStr "W0611"; VInt 12] [(kw_node, VObj 9)]).
Proof.
  apply (C8_decision_reads_captured_linter Demo.absolute Demo.absolute);
    reflexivity.
Defined.

Lemma class_getattr_forget (classes : gmap nat closure) (cls : nat) :
  class_getattr (forget <$> classes) cls = forget (closure_getattr classes cls).
Proof.
  unfold class_getattr, closure_getattr. rewrite lookup_fmap.
  by destruct (classes !! cls).
Qed.

Lemma install_closures_forget (k : nat) (files : list Path)
    (checkers : list (BaseChecker * list MessageDefinition)) :
  forall classes,
    forget <$> install_closures k files checkers classes =
    install files checkers (forget <$> classes).
Proof.
  induction checkers as [|[checker messages] rest IH]; intros classes; [done|].
  simpl. rewrite IH, fmap_insert. simpl. by rewrite class_getattr_forget.
Qed.

Lemma closure_getattr_insert (classes : gmap nat closure) (cls cls' : nat)
    (m : closure) :
  closure_getattr (<[cls := m]> classes) cls' =
  if decide (cls = cls') then m else closure_getattr classes cls'.
Proof. unfold closure_getattr. rewrite lookup_insert. by case_decide. Qed.

(** X18: when every closure of a chain captured the same linter, an
    emission through the chain comes to what [call] gives on that
    linter; installing for that linter keeps every chain so and puts
    on the classes what [install] puts. *)
Theorem X18_one_linter_in_the_process (absolute : string -> Path) (k : nat) :
  (forall linters m args kwargs,
      captured_all k m ->
      call_closure absolute linters m args kwargs =
      call absolute (forget m) (linters k) args kwargs)
  /\ (forall files checkers classes,
        (forall cls, captured_all k (closure_getattr classes cls)) ->
        forall cls,
          captured_all k
            (closure_getattr (install_closures k files checkers classes) cls)
          /\ forget (closure_getattr
                       (install_closures k files checkers classes) cls)
             = class_getattr (install files checkers (forget <$> classes)) cls).
Proof.
  split.
  - intros linters m args kwargs.
    induction m as [|captured files messages ppfi_func IH]; [done|].
    intros [-> Hrest]. simpl. unfold closure_step.
    destruct (_add_message absolute (linters k) files messages args kwargs)
      as [|args' kwargs'|e] eqn:Hstep; [done| |done].
    assert (args' = args /\ kwargs' = kwargs) as [-> ->].
    { unfold _add_message in Hstep.
      repeat (case_match; try done); by injection Hstep as <- <-. }
    by apply IH.
  - intros files checkers classes Hall cls. split.
    + revert classes Hall.
      induction checkers as [|[checker messages] rest IH]; intros classes Hall;
        [apply Hall|].
      simpl. apply IH. intros cls'. rewrite closure_getattr_insert.
      case_decide; [|apply Hall]. simpl. split; [done|apply Hall].
    + by rewrite <- class_getattr_forget, install_closures_forget.
Qed.

Lemma X18_witness :
  call_closure Demo.absolute (Demo.two_linters (Some "other/c.py"))
    Demo.closure_of_linter_0 [VObj 1; VStr "W0611"] Demo.kw
  = call Demo.absolute (forget Demo.closure_of_linter_0)
      (Demo.two_linters (Some "other/c.py") 0) [VObj 1; VStr "W0611"] Demo.kw.
Proof.
  apply (proj1 (X18_one_linter_in_the_process Demo.absolute 0)).
  by_compute.
Defined.

(** * The closure in a listed file, and the last line of a pattern *)

(** In a listed file, a message id that the store does not know or that
    comes by keyword is neither dropped nor handed on. *)
Lemma C1_listed_file_can_raise :
  current_file (Demo.linter "" (Some "tests/a.py")) = Some "tests/a.py"
  /\ Demo.absolute "tests/a.py" ∈ ["/w/tests/a.py"]
  /\ _add_message Demo.absolute (Demo.linter "" (Some "tests/a.py"))
       ["/w/tests/a.py"] [Demo.unused_import] [VObj 1; VStr "bogus"] Demo.kw
     = Raise UnknownMessageError
  /\ call Demo.absolute
       (ppfi_add_message ["/w/tests/a.py"] [Demo.unused_import]
          original_add_message)
       (Demo.linter "" (Some "tests/a.py")) [VObj 1; VStr "bogus"] Demo.kw
     = Raised UnknownMessageError
  /\ call Demo.absolute
       (ppfi_add_message ["/w/tests/a.py"] [Demo.unused_import]
          original_add_message)
       (Demo.linter "" (Some "tests/a.py")) [VObj 1]
       [(kw_msgid, VStr "C0415")]
     = Raised IndexError.
Proof.
  split; [reflexivity|]. split; [by_compute|]. vm_compute. done.
Qed.

Lemma C1_witness :
  call Demo.absolute
    (ppfi_add_message ["/w/tests/a.py"] [Demo.unused_import] original_add_message)
    (Demo.linter "" (Some "tests/a.py")) [VObj 1; VStr "W0611"] []
  = Dropped
  /\ call Demo.absolute
       (ppfi_add_message ["/w/tests/a.py"] [Demo.unused_import] original_add_message)
       (Demo.linter "" (Some "other/c.py")) [VObj 1] [(kw_msgid, VStr "W0611")]
     = call Demo.absolute original_add_message
         (Demo.linter "" (Some "other/c.py")) [VObj 1] [(kw_msgid, VStr "W0611")]
  /\ call Demo.absolute
       (ppfi_add_message ["/w/tests/a.py"] [Demo.unused_import] original_add_message)
       (Demo.linter "" (Some "tests/a.py")) [VObj 1; VStr "bogus"] []
     = Raised UnknownMessageError.
Proof.
  destruct (C1_drop_forward_or_unknown_rule Demo.absolute
              (Demo.linter "" (Some "tests/a.py")) ["/w/tests/a.py"]
              [Demo.unused_import] original_add_message
              [VObj 1; VStr "W0611"] [] "tests/a.py" eq_refl eq_refl)
    as (_ & Hknown & _ & _).
  destruct (Hknown "W0611" [Demo.unused_import] eq_refl eq_refl)
    as (_ & Hdrop & _).
  destruct (C1_drop_forward_or_unknown_rule Demo.absolute
              (Demo.linter "" (Some "other/c.py")) ["/w/tests/a.py"]
              [Demo.unused_import] original_add_message
              [VObj 1] [(kw_msgid, VStr "W0611")] "other/c.py" eq_refl eq_refl)
    as (Hout & _).
  destruct (C1_drop_forward_or_unknown_rule Demo.absolute
              (Demo.linter "" (Some "tests/a.py")) ["/w/tests/a.py"]
              [Demo.unused_import] original_add_message
              [VObj 1; VStr "bogus"] [] "tests/a.py" eq_refl eq_refl)
    as (_ & _ & Hunknown & _).
  split; [|split].
  - apply Hdrop. split; [by_compute|].
    exists Demo.unused_import. split; by_compute.
  - apply Hout. by_compute.
  - apply (Hunknown "bogus"); [by_compute|reflexivity|reflexivity].
Defined.

Section LastLine.

Context (absolute : string -> Path) (glob : string -> list string).

(** After a load that goes through, the owner's class of every rule
    token of every item carries a closure with the files of the item's
    pattern and all the definitions of the token. *)
Lemma load_items_captures (linter : PyLinter) (items : list (string * string))
    (classes classes' : gmap nat method) (pattern rules_str rule : string) :
  load_items absolute glob linter items classes = (Ok tt, classes') ->
  (pattern, rules_str) ∈ items -> rule ∈ parse_rules rules_str ->
  exists c defs messages,
    _get_checker_by_msg linter rule = Ok c
    /\ msgs_store linter rule = Some defs
    /\ defs ⊆ messages
    /\ (map absolute (glob (without_line_break pattern)), messages)
         ∈ layers (class_getattr classes' (class_of c)).
Proof.
  intros Hload Hitem Hrule.
  destruct (load_items_resolved _ _ _ _ _ _ Hload _ _ Hitem) as [checkers Hres].
  destruct (resolve_rules_groups linter (fun _ => True) _ _ _ Hres)
    as (_ & _ & _ & Hcap & _); [done| |done|].
  { by intros ?? ?%elem_of_nil. }
  destruct (Hcap _ Hrule) as (c & defs & m & Hown & Hstore & Hin & Hsub).
  exists c, defs, m. do 3 (split; [done|]).
  rewrite (load_items_layers _ _ _ _ _ _ _ Hload). apply elem_of_app. left.
  apply elem_of_rev_concat_map. exists (pattern, rules_str).
  split; [done|]. unfold item_layers. cbn [fst snd]. rewrite Hres.
  by apply new_layers_elem.
Qed.

(** C10: when a pattern occurs on several lines, the mapping holds it
    once, with the rule list of its last line, and the load runs over
    that mapping.  After a load that goes through, the closures on
    every class are those of the items of the mapping and no others:
    each rule token of the last line has, on its owner's class, a
    closure with the files of the pattern and all its definitions, and
    that closure drops the emissions of the rule in those files;
    whatever is dropped was dropped before or is listed by an item of
    the mapping, so the rule lists of the earlier lines suppress
    nothing. *)
Theorem C10_last_entry_per_pattern (linter : PyLinter)
    (lines1 lines2 : list string) (line pattern rules_str : string)
    (config : list (string * string)) :
  _parse_string (per_file_ignores linter) = lines1 ++ line :: lines2 ->
  Str.split ":" line = [pattern; rules_str] ->
  Forall (fun item => key_of (Str.split ":" item) <> Some pattern) lines2 ->
  parse_config (per_file_ignores linter) = Ok config ->
  NoDup (dict_items config).*1
  /\ (forall r, (pattern, r) ∈ dict_items config <-> r = rules_str)
  /\ (forall classes,
        load_configuration absolute glob linter classes =
        load_items absolute glob linter (dict_items config) classes)
  /\ (forall classes classes' cls linter' args kwargs,
        load_configuration absolute glob linter classes = (Ok tt, classes') ->
        call absolute (class_getattr classes' cls) linter' args kwargs = Dropped ->
        call absolute (class_getattr classes cls) linter' args kwargs = Dropped
        \/ exists pattern' rules_str' F R defs rule rule_defs msg,
            (pattern', rules_str') ∈ dict_items config
            /\ current_file linter' = Some F
            /\ absolute F ∈ map absolute (glob (without_line_break pattern'))
            /\ args !! 1 = Some (VStr R) /\ msgs_store linter' R = Some defs
            /\ rule ∈ parse_rules rules_str'
            /\ msgs_store linter rule = Some rule_defs
            /\ msg ∈ defs /\ msg ∈ rule_defs)
  /\ (forall classes classes' cls,
        load_configuration absolute glob linter classes = (Ok tt, classes') ->
        layers (class_getattr classes' cls) =
        rev (concat (map (item_layers absolute glob linter cls)
                         (dict_items config)))
        ++ layers (class_getattr classes cls))
  /\ (forall classes classes' rule,
        load_configuration absolute glob linter classes = (Ok tt, classes') ->
        rule ∈ parse_rules rules_str ->
        exists c defs messages,
          _get_checker_by_msg linter rule = Ok c
          /\ msgs_store linter rule = Some defs
          /\ defs ⊆ messages
          /\ (map absolute (glob (without_line_break pattern)), messages)
               ∈ layers (class_getattr classes' (class_of c))
          /\ forall linter' args kwargs F R defs' msg,
              current_file linter' = Some F -> Str.truthy F = true ->
              absolute F ∈ map absolute (glob (without_line_break pattern)) ->
              args !! 1 = Some (VStr R) -> msgs_store linter' R = Some defs' ->
              msg ∈ defs' -> msg ∈ defs ->
              call absolute (class_getattr classes' (class_of c))
                linter' args kwargs = Dropped).
Proof.
  intros Hlines Hline Hlast Hcfg.
  assert (NoDup config.*1) as Hnd.
  { eapply dict_update_NoDup; [exact Hcfg|]. apply NoDup_nil_2. }
  assert (forall r, (pattern, r) ∈ dict_items config <-> r = rules_str) as Hone.
  { intros r. unfold dict_items. rewrite <- (dict_get_Some _ _ _ Hnd).
    unfold parse_config in Hcfg.
    rewrite Hlines, map_app in Hcfg. simpl in Hcfg. rewrite Hline in Hcfg.
    rewrite (dict_update_get_last _ _ _ _ _ _ Hcfg).
    - split; congruence.
    - by apply Forall_fmap. }
  split; [done|]. split; [done|]. split; [|split; [|split]].
  - intros classes. by apply load_configuration_parsed.
  - intros classes classes' cls linter' args kwargs.
    rewrite (load_configuration_parsed _ _ _ _ _ Hcfg).
    apply load_dropped_justified.
  - intros classes classes' cls.
    rewrite (load_configuration_parsed _ _ _ _ _ Hcfg).
    apply load_items_layers.
  - intros classes classes' rule Hload Hrule.
    rewrite (load_configuration_parsed _ _ _ _ _ Hcfg) in Hload.
    assert ((pattern, rules_str) ∈ dict_items config) as Hitem by (by apply Hone).
    destruct (load_items_captures _ _ _ _ _ _ _ Hload Hitem Hrule)
      as (c & defs & m & Hown & Hstore & Hsub & Hlayer).
    exists c, defs, m. do 4 (split; [done|]).
    intros linter' args kwargs F R defs' msg Hcf HF Hfile Harg Hst Hm Hm'.
    apply (call_dropped_iff _ _ _ _ _ F R defs'); try done.
    exists (map absolute (glob (without_line_break pattern))), m.
    split; [done|]. split; [done|]. exists msg. split; [done|by apply Hsub].
Qed.

End LastLine.

Lemma C10_witness :
  (("tests/*", "unused-import") ∈ dict_items [("tests/*", "line-too-long")]
   <-> "unused-import" = "line-too-long")
  /\ layers (class_getattr Demo.repeated_loaded 2) =
     rev (concat (map (item_layers Demo.absolute Demo.glob
                         (Demo.linter Demo.repeated_text None) 2)
                      (dict_items [("tests/*", "line-too-long")])))
     ++ layers (class_getattr ∅ 2)
  /\ Demo.emit Demo.repeated_loaded Demo.format (Some "tests/a.py")
       "line-too-long" = Dropped.
Proof.
  destruct (C10_last_entry_per_pattern Demo.absolute Demo.glob
              (Demo.linter Demo.repeated_text None)
              ["tests/*:unused-import"] [] "tests/*:line-too-long"
              "tests/*" "line-too-long" [("tests/*", "line-too-long")]
              eq_refl eq_refl (Forall_nil_2 _) eq_refl)
    as (_ & Hlast & _ & _ & Hlayers & Happlied).
  split; [exact (Hlast "unused-import")|]. split.
  - apply (Hlayers ∅ Demo.repeated_loaded 2). reflexivity.
  - destruct (Happlied ∅ Demo.repeated_loaded "line-too-long" eq_refl
                ltac:(by_compute))
      as (c & defs & messages & Hown & Hstore & _ & _ & Hdrop).
    vm_compute in Hown. injection Hown as <-.
    vm_compute in Hstore. injection Hstore as <-.
    apply (Hdrop (Demo.linter "" (Some "tests/a.py"))
             [VObj 2; VStr "line-too-long"] [(kw_line, VInt 3)]
             "tests/a.py" "line-too-long" [Demo.line_too_long]
             Demo.line_too_long); try reflexivity; by_compute.
Defined.
